(** * Plottable: logarithmic scale and formatter suite

    A shallow embedding of [src/scales/logScale.ts] (class [Log]) and of the
    formatter module ([fixed], [general], [exponential], [percentage],
    [shortScale], [multiTime], [verifyPrecision]) together with the part of
    the JavaScript platform those functions call.

    JavaScript numbers are IEEE-754 binary64 values; they are modelled by
    Rocq's primitive [float], whose operations are the same round-to-nearest
    binary64 operations.  Exact values are read through [Prim2SF]. *)

From Stdlib Require Import ZArith List String Ascii Bool Lia.
From Stdlib Require Import DecimalString.
From Stdlib Require Import Floats.
Import ListNotations.

Open Scope Z_scope.

(** ** The JavaScript platform *)

Module JS.

(** A JavaScript [number]. *)
Definition number := float.
Bind Scope float_scope with number.

Definition Infinity : number := infinity.

(** [x === y] and [x !== y] on numbers, [x < y], [x >= y], ... *)
Definition strict_eq (x y : number) : bool := (x =? y)%float.
Definition strict_ne (x y : number) : bool := negb (x =? y)%float.
Definition lt (x y : number) : bool := (x <? y)%float.
Definition gt (x y : number) : bool := (y <? x)%float.
Definition le (x y : number) : bool := (x <=? y)%float.
Definition ge (x y : number) : bool := (y <=? x)%float.

Definition isNaN (x : number) : bool := is_nan x.

(** The nearest binary64 value to an integer.  Integers of at most 53 bits
    are represented exactly, in canonical form. *)
Definition pos2SF (s : bool) (p : positive) : spec_float :=
  let d := Z.pos (digits2_pos p) in
  if d <=? prec
  then S754_finite s (Pos.shiftl p (Z.to_N (prec - d))) (d - prec)
  else binary_round prec emax s p 0.

Definition Z2SF (z : Z) : spec_float :=
  match z with
  | Z0 => S754_zero false
  | Z.pos p => pos2SF false p
  | Z.neg p => pos2SF true p
  end.

Definition Z2num (z : Z) : number := SF2Prim (Z2SF z).

(** The IEEE-754 binary64 encoding of a number, as an unsigned 64-bit
    integer, and its inverse. *)
Definition bits_of_SF (x : spec_float) : Z :=
  match x with
  | S754_zero s => if s then 2 ^ 63 else 0
  | S754_infinity s => (if s then 2 ^ 63 else 0) + 0x7ff0000000000000
  | S754_nan => 0x7ff8000000000000
  | S754_finite s m e =>
      (if s then 2 ^ 63 else 0) +
      (if Z.pos (digits2_pos m) =? prec
       then (e + 1075) * 2 ^ 52 + (Z.pos m - 2 ^ 52)
       else Z.pos m)
  end.

Definition SF_of_bits (b : Z) : spec_float :=
  let s := Z.testbit b 63 in
  let E := Z.land (Z.shiftr b 52) 0x7ff in
  let f := Z.land b 0xfffffffffffff in
  if E =? 0 then
    match f with
    | Z.pos m => S754_finite s m (-1074)
    | _ => S754_zero s
    end
  else if E =? 0x7ff then
    (if f =? 0 then S754_infinity s else S754_nan)
  else
    match f + 2 ^ 52 with
    | Z.pos m => S754_finite s m (E - 1075)
    | _ => S754_nan
    end.

Definition bits (x : number) : Z := bits_of_SF (Prim2SF x).
Definition of_bits (b : Z) : number := SF2Prim (SF_of_bits b).

(** [Number.isInteger]. *)
Definition SF_is_integer (x : spec_float) : bool :=
  match x with
  | S754_zero _ => true
  | S754_finite _ m e => (0 <=? e) || (Z.pos m mod 2 ^ (- e) =? 0)
  | _ => false
  end.

Definition isInteger (x : number) : bool := SF_is_integer (Prim2SF x).

(** The integer value of an integral finite number. *)
Definition SF_to_Z (x : spec_float) : option Z :=
  match x with
  | S754_zero _ => Some 0
  | S754_finite s m e =>
      if 0 <=? e then Some (cond_Zopp s (Z.pos m * 2 ^ e))
      else if Z.pos m mod 2 ^ (- e) =? 0
           then Some (cond_Zopp s (Z.pos m / 2 ^ (- e)))
           else None
  | _ => None
  end.

Definition num2Z (x : number) : option Z := SF_to_Z (Prim2SF x).

(** The integer an integral number denotes, as the conversion applied to the
    argument of [toFixed] or to a loop bound yields it; 0 for a number that
    is not integral. *)
Definition ToInteger (p : number) : Z :=
  match num2Z p with
  | Some z => z
  | None => 0
  end.

End JS.

(** ** [Math] *)

Module Math.
Import JS.

Definition abs (x : number) : number := PrimFloat.abs x.

(** [Math.floor]: NaN, infinities, zeros and integral values are returned
    unchanged; otherwise the largest integer below the exact value. *)
Definition floor (x : number) : number :=
  match Prim2SF x with
  | S754_finite s m e =>
      if 0 <=? e then x
      else if Z.pos m mod 2 ^ (- e) =? 0 then x
      else Z2num (if s then - (Z.pos m / 2 ^ (- e)) - 1 else Z.pos m / 2 ^ (- e))
  | _ => x
  end.

(** [Math.ceil]; a value in (-1, 0) gives -0. *)
Definition ceil (x : number) : number :=
  match Prim2SF x with
  | S754_finite s m e =>
      if 0 <=? e then x
      else if Z.pos m mod 2 ^ (- e) =? 0 then x
      else if s
           then (let q := Z.pos m / 2 ^ (- e) in
                 if q =? 0 then neg_zero else Z2num (- q))
           else Z2num (Z.pos m / 2 ^ (- e) + 1)
  | _ => x
  end.

(** [Math.round]: the nearest integer, ties towards +Infinity; a value in
    [-0.5, 0) gives -0. *)
Definition round (x : number) : number :=
  match Prim2SF x with
  | S754_finite s m e =>
      if 0 <=? e then x
      else if Z.pos m mod 2 ^ (- e) =? 0 then x
      else
        let v := cond_Zopp s (Z.pos m) in
        let q := (2 * v + 2 ^ (- e)) / 2 ^ (- e + 1) in
        if (q =? 0) && s then neg_zero else Z2num q
  | _ => x
  end.

(** [Math.log].  The language leaves the last bit of [Math.log] to the
    implementation; this is the algorithm of fdlibm's [e_log.c], which V8
    ([ieee754::log]) and SpiderMonkey use: argument reduction
    [x = 2^k * (1 + f)] on the high word, then a degree-14 polynomial in
    [s = f / (2 + f)]. *)
Definition HI (x : number) : Z :=
  let h := Z.shiftr (bits x) 32 in
  if h <? 2 ^ 31 then h else h - 2 ^ 32.
Definition LO (x : number) : Z := Z.land (bits x) 0xffffffff.
Definition SET_HIGH_WORD (x : number) (v : Z) : number :=
  of_bits (Z.lor (Z.shiftl (Z.land v 0xffffffff) 32) (LO x)).

Definition ln2_hi : number := of_bits 0x3fe62e42fee00000.
Definition ln2_lo : number := of_bits 0x3dea39ef35793c76.
Definition two54 : number := of_bits 0x4350000000000000.
Definition Lg1 : number := of_bits 0x3FE5555555555593.
Definition Lg2 : number := of_bits 0x3FD999999997FA04.
Definition Lg3 : number := of_bits 0x3FD2492494229359.
Definition Lg4 : number := of_bits 0x3FCC71C51D8E78AF.
Definition Lg5 : number := of_bits 0x3FC7466496CB03DE.
Definition Lg6 : number := of_bits 0x3FC39A09D078C69F.
Definition Lg7 : number := of_bits 0x3FC2F112DF3E5244.
Definition one_third : number := of_bits 0x3FD5555555555555.

Definition log_reduced (k0 : Z) (x0 : number) (hx0 : Z) : number :=
  if 0x7ff00000 <=? hx0 then (x0 + x0)%float
  else
    let k1 := k0 + (Z.shiftr hx0 20 - 1023) in
    let hx := Z.land hx0 0x000fffff in
    let i := Z.land (hx + 0x95f64) 0x100000 in
    let x := SET_HIGH_WORD x0 (Z.lor hx (Z.lxor i 0x3ff00000)) in
    let k := k1 + Z.shiftr i 20 in
    let dk := Z2num k in
    let f := (x - 1)%float in
    if Z.land 0x000fffff (2 + hx) <? 3 then
      if (f =? 0)%float then
        if k =? 0 then 0%float else (dk * ln2_hi + dk * ln2_lo)%float
      else
        let R := (f * f * (0.5 - one_third * f))%float in
        if k =? 0 then (f - R)%float
        else (dk * ln2_hi - ((R - dk * ln2_lo) - f))%float
    else
      let s := (f / (2 + f))%float in
      let z := (s * s)%float in
      let w := (z * z)%float in
      let t1 := (w * (Lg2 + w * (Lg4 + w * Lg6)))%float in
      let t2 := (z * (Lg1 + w * (Lg3 + w * (Lg5 + w * Lg7))))%float in
      let R := (t2 + t1)%float in
      if 0 <? Z.lor (hx - 0x6147a) (0x6b851 - hx) then
        let hfsq := (0.5 * f * f)%float in
        if k =? 0 then (f - (hfsq - s * (hfsq + R)))%float
        else (dk * ln2_hi - ((hfsq - (s * (hfsq + R) + dk * ln2_lo)) - f))%float
      else
        if k =? 0 then (f - s * (f - R))%float
        else (dk * ln2_hi - ((s * (f - R) - dk * ln2_lo) - f))%float.

Definition log (x : number) : number :=
  let hx := HI x in
  if hx <? 0x00100000 then
    if Z.lor (Z.land hx 0x7fffffff) (LO x) =? 0 then neg_infinity
    else if hx <? 0 then nan
    else
      let x' := (x * two54)%float in
      log_reduced (-54) x' (HI x')
  else log_reduced 0 x hx.

(** [Math.pow(x, y)] and [x ** y].  Every exponent in this program is
    integral (it comes from [Math.floor], [Math.ceil], a validated
    precision, a string length or an integer constant), and the model covers
    those: the result is the exact power rounded to nearest.  A finite
    non-integral exponent is outside the model and yields NaN. *)
(** [(-1)^n * m^|n| * 2^(e |n|)], or its reciprocal for a negative [n],
    rounded to nearest. *)
Definition pow_finite (sx : bool) (m : positive) (e n : Z) : number :=
  let s := sx && Z.odd n in
  let p := (m ^ Z.to_pos (Z.abs n))%positive in
  if n <? 0
  then SF2Prim (SFdiv prec emax (S754_finite s 1 0)
                      (S754_finite false p (e * Z.abs n)))
  else SF2Prim (binary_round prec emax s p (e * n)).

Definition pow (x y : number) : number :=
  match Prim2SF y with
  | S754_nan => nan
  | S754_zero _ => 1%float
  | S754_infinity sy =>
      if is_nan x then nan
      else if (PrimFloat.abs x =? 1)%float then nan
      else if xorb (1 <? PrimFloat.abs x)%float sy then infinity else 0%float
  | S754_finite sy _ _ as fy =>
      match SF_to_Z fy with
      | None => nan
      | Some n =>
          match Prim2SF x with
          | S754_nan => nan
          | S754_infinity sx =>
              if sy then (if sx && Z.odd n then neg_zero else 0%float)
              else (if sx && Z.odd n then neg_infinity else infinity)
          | S754_zero sx =>
              if sy then (if sx && Z.odd n then neg_infinity else infinity)
              else (if sx && Z.odd n then neg_zero else 0%float)
          | S754_finite sx m e => pow_finite sx m e n
          end
      end
  end.

End Math.

(** ** Strings and conversions between numbers and strings *)

Module Str.

Open Scope string_scope.
Open Scope Z_scope.

(** The decimal digits of a non-negative integer. *)
Definition of_Z (z : Z) : string := NilZero.string_of_int (Z.to_int z).

Fixpoint repeat0 (n : nat) : string :=
  match n with
  | O => ""
  | S n' => String "0" (repeat0 n')
  end.

(** [s.padStart(w, "0")] *)
Definition pad_left0 (w : nat) (s : string) : string :=
  repeat0 (w - String.length s)%nat ++ s.

(** [s.indexOf(".")]: -1 when there is none. *)
Definition indexOf_dot (s : string) : Z :=
  match String.index 0 "." s with
  | Some i => Z.of_nat i
  | None => -1
  end.

(** [s.substr(0, n)] *)
Definition substr0 (n : nat) (s : string) : string := String.substring 0 n s.

Definition length (s : string) : Z := Z.of_nat (String.length s).

End Str.

Module Number.
Import JS.

Open Scope string_scope.
Open Scope Z_scope.

(** Positions of a positive finite number [m * 2^e] on a common integer
    scale: the value and the two ends of its rounding interval (half way to
    the neighbouring binary64 values), each as a numerator over [den]. *)
Record interval := {
  den : Z;      (** common denominator, a power of two *)
  val : Z;      (** numerator of the value *)
  low : Z;      (** numerator of the lower end *)
  high : Z;     (** numerator of the upper end *)
  closed : bool (** the ends round to the value (even mantissa) *)
}.

Definition rounding_interval (m : positive) (e : Z) : interval :=
  let gap_low := if (Z.pos m =? 2 ^ 52) && (-1074 <? e) then 1 else 2 in
  let sc := if 0 <=? e - 2 then 2 ^ (e - 2) else 1 in
  {| den := if 0 <=? e - 2 then 1 else 2 ^ (2 - e);
     val := 4 * Z.pos m * sc;
     low := (4 * Z.pos m - gap_low) * sc;
     high := (4 * Z.pos m + 2) * sc;
     closed := Z.even (Z.pos m) |}.

(** [v / d] compared with [10^n]. *)
Definition lt_pow10 (v d n : Z) : bool :=
  if 0 <=? n then v <? d * 10 ^ n else v * 10 ^ (- n) <? d.

(** The decimal exponent [n] of a positive value: [10^(n-1) <= v/d < 10^n]. *)
Fixpoint exponent_from (fuel : nat) (v d n : Z) : Z :=
  match fuel with
  | O => n
  | S fuel' => if lt_pow10 v d n then n else exponent_from fuel' v d (n + 1)
  end.

Definition decimal_exponent (v d : Z) : Z :=
  let est := (Z.log2 v - Z.log2 d - 2) * 30103 / 100000 - 1 in
  exponent_from 8 v d est.

(** [v * 10^t / d] as a fraction of integers. *)
Definition scaled (v d t : Z) : Z * Z :=
  if 0 <=? t then (v * 10 ^ t, d) else (v, d * 10 ^ (- t)).

Definition ceil_div (a b : Z) : Z := - ((- a) / b).
Definition nearest_even_div (a b : Z) : Z :=
  let q := a / b in
  let r := a mod b in
  match Z.compare (2 * r) b with
  | Lt => q
  | Gt => q + 1
  | Eq => if Z.even q then q else q + 1
  end.
(** Ties away from zero ("pick the larger n"). *)
Definition nearest_up_div (a b : Z) : Z := (2 * a + b) / (2 * b).

(** The [k]-digit decimal closest to the value among those that round to it,
    if there is one. *)
Definition candidate (iv : interval) (n k : Z) : option Z :=
  let '(ln, ld) := scaled (low iv) (den iv) (k - n) in
  let '(hn, hd) := scaled (high iv) (den iv) (k - n) in
  let '(vn, vd) := scaled (val iv) (den iv) (k - n) in
  let smin := if closed iv then ceil_div ln ld else ln / ld + 1 in
  let smax := if closed iv then hn / hd else ceil_div hn hd - 1 in
  if smin <=? smax
  then Some (Z.max smin (Z.min smax (nearest_even_div vn vd)))
  else None.

Fixpoint shortest_from (fuel : nat) (iv : interval) (n k : Z) : Z * Z * Z :=
  match candidate iv n k with
  | Some s => if s =? 10 ^ k then (s / 10, k, n + 1) else (s, k, n)
  | None =>
      match fuel with
      | O => (nearest_even_div (fst (scaled (val iv) (den iv) (k - n)))
                               (snd (scaled (val iv) (den iv) (k - n))), k, n)
      | S fuel' => shortest_from fuel' iv n (k + 1)
      end
  end.

(** The integers [s], [k], [n] of the language's [Number::toString]: [s] has
    [k] digits, [s * 10^(n-k)] reads back as the value, and [k] is least. *)
Definition shortest (m : positive) (e : Z) : Z * Z * Z :=
  let iv := rounding_interval m e in
  shortest_from 16 iv (decimal_exponent (val iv) (den iv)) 1.

Definition exponent_suffix (n : Z) : string :=
  "e" ++ (if 0 <=? n - 1 then "+" else "-") ++ Str.of_Z (Z.abs (n - 1)).

Definition format_digits (s k n : Z) : string :=
  let ds := Str.of_Z s in
  if (k <=? n) && (n <=? 21) then ds ++ Str.repeat0 (Z.to_nat (n - k))
  else if (0 <? n) && (n <=? 21) then
    String.substring 0 (Z.to_nat n) ds ++ "." ++
    String.substring (Z.to_nat n) (Z.to_nat (k - n)) ds
  else if (-6 <? n) && (n <=? 0) then
    "0." ++ Str.repeat0 (Z.to_nat (- n)) ++ ds
  else if k =? 1 then ds ++ exponent_suffix n
  else String.substring 0 1 ds ++ "." ++
       String.substring 1 (Z.to_nat (k - 1)) ds ++ exponent_suffix n.

(** [Number::toString(x)], radix 10; also [String(x)] for a number. *)
Definition toString (x : number) : string :=
  match Prim2SF x with
  | S754_nan => "NaN"
  | S754_zero _ => "0"
  | S754_infinity s => if s then "-Infinity" else "Infinity"
  | S754_finite s m e =>
      let '(d, k, n) := shortest m e in
      (if s then "-" else "") ++ format_digits d k n
  end.

(** The exact value of [m * 2^e] times [10^f], as a fraction. *)
Definition times_pow10 (m : positive) (e f : Z) : Z * Z :=
  let '(a, b) := if 0 <=? e then (Z.pos m * 2 ^ e, 1) else (Z.pos m, 2 ^ (- e)) in
  scaled a b f.

(** [x.toFixed(f)] for an integer [0 <= f <= 100]. *)
Definition toFixed (x : number) (f : Z) : string :=
  match Prim2SF x with
  | S754_finite s m e =>
      if (PrimFloat.abs x <? 1e21)%float then
        let '(a, b) := times_pow10 m e f in
        let n := nearest_up_div a b in
        let ds := Str.pad_left0 (Z.to_nat (f + 1)) (Str.of_Z n) in
        let k := String.length ds in
        (if s then "-" else "") ++
        (if f =? 0 then ds
         else String.substring 0 (k - Z.to_nat f)%nat ds ++ "." ++
              String.substring (k - Z.to_nat f)%nat (Z.to_nat f) ds)
      else toString x
  | S754_zero _ =>
      if f =? 0 then "0" else "0." ++ Str.repeat0 (Z.to_nat f)
  | _ => toString x
  end.

(** [x.toExponential(f)] for an integer [0 <= f <= 100]. *)
Definition toExponential (x : number) (f : Z) : string :=
  let mantissa (ds : string) :=
    if f =? 0 then ds
    else String.substring 0 1 ds ++ "." ++ String.substring 1 (Z.to_nat f) ds in
  match Prim2SF x with
  | S754_nan => "NaN"
  | S754_infinity s => if s then "-Infinity" else "Infinity"
  | S754_zero s =>
      mantissa (Str.repeat0 (Z.to_nat (f + 1))) ++ "e+0"
  | S754_finite s m e =>
      let '(a, b) := times_pow10 m e 0 in
      let n0 := decimal_exponent a b in
      let '(a1, b1) := times_pow10 m e (f + 1 - n0) in
      let d0 := nearest_up_div a1 b1 in
      let '(d, n) := if d0 =? 10 ^ (f + 1) then (d0 / 10, n0 + 1) else (d0, n0) in
      (if s then "-" else "") ++ mantissa (Str.of_Z d) ++ exponent_suffix n
  end.

(** [parseInt(s, 10)]: an optional sign, then the longest run of decimal
    digits; NaN when there is no digit.  (Leading white space, which no
    string in this program has, is not skipped.) *)
Definition digit_of (c : ascii) : option Z :=
  let n := Z.of_nat (nat_of_ascii c) in
  if (48 <=? n) && (n <=? 57) then Some (n - 48) else None.

Fixpoint parse_digits (s : string) (acc : option Z) : option Z :=
  match s with
  | EmptyString => acc
  | String c s' =>
      match digit_of c with
      | Some d => parse_digits s' (Some (10 * match acc with Some a => a | None => 0 end + d))
      | None => acc
      end
  end.

Definition parseInt (s : string) : number :=
  match s with
  | String "-" s' =>
      match parse_digits s' None with
      | Some 0 => neg_zero
      | Some z => Z2num (- z)
      | None => nan
      end
  | String "+" s' =>
      match parse_digits s' None with
      | Some z => Z2num z
      | None => nan
      end
  | _ =>
      match parse_digits s None with
      | Some z => Z2num z
      | None => nan
      end
  end.

End Number.

(** ** The formatter module *)

Module Formatters.
Import JS.

Open Scope string_scope.
Open Scope Z_scope.

(** Exceptions and the outcome of a call that may throw. *)
Inductive exn : Type :=
| RangeError (message : string).

Inductive result (A : Type) : Type :=
| Ok (a : A)
| Throw (e : exn).
Arguments Ok {A} a.
Arguments Throw {A} e.

Definition bind {A B : Type} (r : result A) (k : A -> result B) : result B :=
  match r with
  | Ok a => k a
  | Throw e => Throw e
  end.

Notation "x <- r ;; k" := (bind r (fun x => k))
  (at level 61, r at next level, right associativity).

(** [make(args)(x)]: build a formatter and apply it. *)
Definition call {A B : Type} (r : result (A -> B)) (x : A) : result B :=
  f <- r ;; Ok (f x).

(** The values a formatter receives here: a number (a tick value) or
    [undefined]. *)
Inductive value : Type :=
| VUndefined
| VNumber (n : number).

Definition typeof (d : value) : string :=
  match d with
  | VUndefined => "undefined"
  | VNumber _ => "number"
  end.

(** [Number(d)] *)
Definition ToNumber (d : value) : number :=
  match d with
  | VUndefined => nan
  | VNumber n => n
  end.

(** [String(d)] *)
Definition String_ (d : value) : string :=
  match d with
  | VUndefined => "undefined"
  | VNumber n => Number.toString n
  end.

(** [d == 0] and [d === undefined] *)
Definition loose_eq_zero (d : value) : bool :=
  match d with
  | VUndefined => false
  | VNumber n => strict_eq n 0
  end.

Definition is_undefined (d : value) : bool :=
  match d with
  | VUndefined => true
  | VNumber _ => false
  end.

Definition verifyPrecision (precision : number) : result unit :=
  if lt precision 0 || gt precision 20 then
    Throw (RangeError "Formatter precision must be between 0 and 20")
  else if strict_ne precision (Math.floor precision) then
    Throw (RangeError "Formatter precision must be an integer")
  else Ok tt.

(** [verifyPrecision] accepts the integer [n], and [n] reads back from the
    number that carries it. *)
Definition precision_accepted (n : Z) : bool :=
  match verifyPrecision (Z2num n) with
  | Ok _ => ToInteger (Z2num n) =? n
  | Throw _ => false
  end.

Definition fixed (precision : number) : result (number -> string) :=
  _ <- verifyPrecision precision ;;
  Ok (fun d => Number.toFixed d (ToInteger precision)).

Definition general (maxNumberOfDecimalPlaces : number) : result (value -> string) :=
  _ <- verifyPrecision maxNumberOfDecimalPlaces ;;
  Ok (fun d =>
        if String.eqb (typeof d) "number" then
          let multiplier := Math.pow 10 maxNumberOfDecimalPlaces in
          Number.toString (Math.round (ToNumber d * multiplier) / multiplier)%float
        else String_ d).

(** The superscript table, keyed by character. *)
Definition superscript_dict (c : ascii) : option string :=
  match c with
  | "0"%char => Some "⁰"
  | "1"%char => Some "¹"
  | "2"%char => Some "²"
  | "3"%char => Some "³"
  | "4"%char => Some "⁴"
  | "5"%char => Some "⁵"
  | "6"%char => Some "⁶"
  | "7"%char => Some "⁷"
  | "8"%char => Some "⁸"
  | "9"%char => Some "⁹"
  | "+"%char => Some "⁺"
  | "-"%char => Some "⁻"
  | "."%char => Some "⋅"
  | _ => None
  end.

(** [s.split("").map(c => c in dict ? dict[c] : c).join("")], for a string of
    one-byte characters. *)
Fixpoint unicode_superscript (s : string) : string :=
  match s with
  | EmptyString => ""
  | String c s' =>
      match superscript_dict c with
      | Some t => t
      | None => String c ""
      end ++ unicode_superscript s'
  end.

Definition exponential (maxNumberOfDecimalPlaces : number) : result (value -> string) :=
  _ <- verifyPrecision maxNumberOfDecimalPlaces ;;
  Ok (fun d =>
        if loose_eq_zero d || is_undefined d || isNaN (ToNumber d)
           || strict_eq (Math.abs (ToNumber d)) Infinity
        then String_ d
        else if String.eqb (typeof d) "number" then
          let d := ToNumber d in
          let multiplier := Math.pow 10 maxNumberOfDecimalPlaces in
          let sign := (if lt d 0 then -1 else 1)%float in
          let e := Math.floor (Math.log (sign * d) / Math.log 10)%float in
          let m := (sign * d / Math.pow 10 e)%float in
          let m_rounded := (Math.round (m * multiplier) / multiplier)%float in
          if strict_eq e 0 then
            Number.toString (sign * m_rounded)%float
          else if strict_eq m_rounded 1 then
            if gt sign 0
            then "10" ++ unicode_superscript (Number.toString e)
            else "-10" ++ unicode_superscript (Number.toString e)
          else
            Number.toString (sign * m_rounded)%float ++ "×10"
            ++ unicode_superscript (Number.toString e)
        else String_ d).

Definition identity : value -> string := fun d => String_ d.

Definition percentage (precision : number) : result (number -> string) :=
  fixedFormatter <- fixed precision ;;
  Ok (fun d =>
        let valToFormat := (d * 100)%float in
        let valString := Number.toString d in
        let integerPowerTen :=
          Math.pow 10 (Z2num (Str.length valString - (Str.indexOf_dot valString + 1))) in
        let valToFormat :=
          (Number.parseInt (Number.toString (valToFormat * integerPowerTen))
           / integerPowerTen)%float in
        fixedFormatter valToFormat ++ "%").

Definition currency (precision : number) (symbol : string) (prefix : bool)
  : result (number -> string) :=
  fixedFormatter <- fixed precision ;;
  Ok (fun d =>
        let formattedValue := fixedFormatter (Math.abs d) in
        if negb (String.eqb formattedValue "") then
          let formattedValue :=
            if prefix then symbol ++ formattedValue else formattedValue ++ symbol in
          if lt d 0 then "-" ++ formattedValue else formattedValue
        else formattedValue).

(** A [Date], through the local-time getters [multiTime] reads. *)
Record Date : Type := {
  getFullYear : Z;
  getMonth : Z;        (** 0 = January *)
  getDate : Z;         (** day of the month, from 1 *)
  getDay : Z;          (** day of the week, 0 = Sunday *)
  getHours : Z;
  getMinutes : Z;
  getSeconds : Z;
  getMilliseconds : Z
}.

(** Days since 1970-01-01 of a civil date (month from 1). *)
Definition days_from_civil (y m d : Z) : Z :=
  let y' := if m <=? 2 then y - 1 else y in
  let era := y' / 400 in
  let yoe := y' - era * 400 in
  let doy := (153 * (if 2 <? m then m - 3 else m + 9) + 2) / 5 + d - 1 in
  let doe := yoe * 365 + yoe / 4 - yoe / 100 + doy in
  era * 146097 + doe - 719468.

(** [new Date(year, monthIndex, day, hours, minutes, seconds, ms)] *)
Definition new_Date (year monthIndex day hours minutes seconds ms : Z) : Date :=
  {| getFullYear := year;
     getMonth := monthIndex;
     getDate := day;
     getDay := (days_from_civil year (monthIndex + 1) day + 4) mod 7;
     getHours := hours;
     getMinutes := minutes;
     getSeconds := seconds;
     getMilliseconds := ms |}.

Record IPredicatedFormat : Type := {
  specifier : string;
  predicate : Date -> bool
}.

Definition candidateFormats : list IPredicatedFormat :=
  [ {| specifier := ".%L"; predicate := fun d => negb (getMilliseconds d =? 0) |};
    {| specifier := ":%S"; predicate := fun d => negb (getSeconds d =? 0) |};
    {| specifier := "%I:%M"; predicate := fun d => negb (getMinutes d =? 0) |};
    {| specifier := "%I %p"; predicate := fun d => negb (getHours d =? 0) |};
    {| specifier := "%a %d";
       predicate := fun d => negb (getDay d =? 0) && negb (getDate d =? 1) |};
    {| specifier := "%b %d"; predicate := fun d => negb (getDate d =? 1) |};
    {| specifier := "%b"; predicate := fun d => negb (getMonth d =? 0) |} ].

(** The specifier [multiTime] hands to [d3.timeFormat]. *)
Definition multiTime_specifier (d : Date) : string :=
  let acceptableFormats := filter (fun candidate => predicate candidate d) candidateFormats in
  match acceptableFormats with
  | first :: _ => specifier first
  | [] => "%Y"
  end.

Section D3.

(** [d3.format(specifier)], [d3.timeFormat(specifier)] and
    [d3.utcFormat(specifier)], the functions of the d3 library the
    formatters call. *)
Variable d3_format : string -> number -> string.
Variable d3_timeFormat : string -> Date -> string.
Variable d3_utcFormat : string -> Date -> string.

Definition siSuffix (numberOfSignificantFigures : number) : result (number -> string) :=
  _ <- verifyPrecision numberOfSignificantFigures ;;
  Ok (fun d => d3_format ("." ++ Number.toString numberOfSignificantFigures ++ "s") d).

Definition DEFAULT_USE_UTC : bool := false.

Definition time (specifier : string) (useUTC : bool) : Date -> string :=
  if useUTC then d3_utcFormat specifier else d3_timeFormat specifier.

Definition suffixes : string := "KMBTQ".

(** [suffixes[idx]] in a string concatenation. *)
Definition suffix_at (idx : Z) : string :=
  if idx <? 0 then "undefined"
  else match String.get (Z.to_nat idx) suffixes with
       | Some c => String c ""
       | None => "undefined"
       end.

(** [while (absNum >= Math.pow(1000, idx + 2) && idx < suffixes.length - 1) idx++];
    the loop runs at most [suffixes.length] times from [idx = -1]. *)
Fixpoint suffix_loop (fuel : nat) (absNum : number) (idx : Z) : Z :=
  match fuel with
  | O => idx
  | S fuel' =>
      if ge absNum (Math.pow 1000 (Z2num (idx + 2))) && (idx <? Str.length suffixes - 1)
      then suffix_loop fuel' absNum (idx + 1)
      else idx
  end.

(** The formatter [shortScale] returns, with the variables it closes over. *)
Definition shortScale_closure
  (exponentFormatter fixedFormatter : number -> string) (max min : number)
  : number -> string :=
  fun num =>
    let absNum := Math.abs num in
    if (lt absNum min || ge absNum max) && strict_ne absNum 0 then
      exponentFormatter num
    else
      let idx := suffix_loop (String.length suffixes) absNum (-1) in
      let output :=
        if idx =? -1 then fixedFormatter num
        else fixedFormatter (num / Math.pow 1000 (Z2num (idx + 1)))%float
             ++ suffix_at idx in
      if (gt num 0 && String.eqb (Str.substr0 4 output) "1000")
         || (lt num 0 && String.eqb (Str.substr0 5 output) "-1000")
      then
        if idx <? Str.length suffixes - 1 then
          fixedFormatter (num / Math.pow 1000 (Z2num (idx + 1 + 1)))%float
          ++ suffix_at (idx + 1)
        else exponentFormatter num
      else output.

Definition shortScale (precision : number) : result (number -> string) :=
  _ <- verifyPrecision precision ;;
  let exponentFormatter := d3_format ("." ++ Number.toString precision ++ "e") in
  let fixedFormatter := d3_format ("." ++ Number.toString precision ++ "f") in
  let max := Math.pow 10 (Z2num (3 * (Str.length suffixes + 1))) in
  let min := Math.pow 10 (- precision)%float in
  Ok (shortScale_closure exponentFormatter fixedFormatter max min).

Definition multiTime : Date -> string :=
  fun d => d3_timeFormat (multiTime_specifier d) d.

End D3.

(** A reference [d3.format] for the two specifier shapes [shortScale]
    builds, after d3-format's documentation: type [f] is [toFixed] and type
    [e] is [toExponential], at the precision written between the dot and the
    type letter.  It instantiates closed examples only; the definitions
    above are generic in [d3.format]. *)
Definition d3_format_reference (spec : string) (x : number) : string :=
  match spec with
  | String "." rest =>
      let n := String.length rest in
      let p := ToInteger (Number.parseInt (String.substring 0 (n - 1) rest)) in
      match String.get (n - 1) rest with
      | Some "f"%char => Number.toFixed x p
      | Some "e"%char => Number.toExponential x p
      | _ => Number.toString x
      end
  | _ => Number.toString x
  end.

(** [Math.pow(1000, idx + 1)]: the magnitude from which [shortScale] uses
    the suffix [suffixes[idx]]. *)
Definition tier_threshold (idx : Z) : number := Math.pow 1000 (Z2num (idx + 1)).

(** The check of [shortScale] for a first rendering that displays 1000:
    [(num > 0 && output.substr(0, 4) === "1000")
     || (num < 0 && output.substr(0, 5) === "-1000")]. *)
Definition displays_1000 (num : number) (output : string) : bool :=
  (gt num 0 && String.eqb (Str.substr0 4 output) "1000")
  || (lt num 0 && String.eqb (Str.substr0 5 output) "-1000").

End Formatters.

(** ** The logarithmic scale *)

Module Scales.
Import JS Formatters.

Open Scope list_scope.
Open Scope Z_scope.

(** The state of a [d3.ScaleLogarithmic]: what its [domain], [range] and
    [base] accessors store and return. *)
Record ScaleLogarithmic : Type := {
  d3_domain : list number;
  d3_range : list number;
  d3_base : number
}.

(** [d3.scaleLog()] *)
Definition scaleLog : ScaleLogarithmic :=
  {| d3_domain := [1; 10]%float; d3_range := [0; 1]%float; d3_base := 10%float |}.

Definition set_base (s : ScaleLogarithmic) (b : number) : ScaleLogarithmic :=
  {| d3_domain := d3_domain s; d3_range := d3_range s; d3_base := b |}.
Definition set_domain (s : ScaleLogarithmic) (d : list number) : ScaleLogarithmic :=
  {| d3_domain := d; d3_range := d3_range s; d3_base := d3_base s |}.
Definition set_range (s : ScaleLogarithmic) (r : list number) : ScaleLogarithmic :=
  {| d3_domain := d3_domain s; d3_range := r; d3_base := d3_base s |}.

(** Which tick generator a scale has installed ([tickGenerator(fn)]). *)
Inductive TickGenerator : Type :=
| NoTickGenerator
| LogTickGenerator.

Record Log : Type := {
  _base : number;
  _minimumNumberOfTicks : number;
  _d3Scale : ScaleLogarithmic;
  _tickGenerator : TickGenerator
}.

Definition with_d3Scale (this : Log) (s : ScaleLogarithmic) : Log :=
  {| _base := _base this;
     _minimumNumberOfTicks := _minimumNumberOfTicks this;
     _d3Scale := s;
     _tickGenerator := _tickGenerator this |}.

(** [domain[i]]: the element, or [undefined] past the end of the array. *)
Definition at_ (l : list number) (i : nat) : value :=
  match nth_error l i with
  | Some x => VNumber x
  | None => VUndefined
  end.


Definition _defaultExtent (this : Log) : list number :=
  [1%float; d3_base (_d3Scale this)].


(** [_backingScaleDomain()] and [_backingScaleDomain(values)] *)
Definition _backingScaleDomain_get (this : Log) : list number :=
  d3_domain (_d3Scale this).

Definition _backingScaleDomain (this : Log) (values : list number) : Log :=
  with_d3Scale this (set_domain (_d3Scale this) values).

Definition _getDomain (this : Log) : list number := _backingScaleDomain_get this.

Definition _getRange (this : Log) : list number := d3_range (_d3Scale this).

Definition _setRange (this : Log) (values : list number) : Log :=
  with_d3Scale this (set_range (_d3Scale this) values).

(** Modelled from the spec: [_setDomain], [tickGenerator] and the getter
    [domain()] of the base classes, whose files are not among the sources,
    as the constructor and [getTransformationDomain] use them.  The default
    extent is the domain before any data is set, so the constructor's
    [_setDomain(this._defaultExtent())] stores it in the backing scale;
    [tickGenerator(fn)] installs the generator; [domain()] reads the domain
    through the subclass's [_getDomain]. *)
Definition _setDomain (this : Log) (values : list number) : Log :=
  _backingScaleDomain this values.

Definition domain (this : Log) : list number := _getDomain this.

Definition tickGenerator (this : Log) (g : TickGenerator) : Log :=
  {| _base := _base this;
     _minimumNumberOfTicks := _minimumNumberOfTicks this;
     _d3Scale := _d3Scale this;
     _tickGenerator := g |}.

(** [new Log(base, minimumNumberOfTicks)] *)
Definition new_Log (base minimumNumberOfTicks : number) : Log :=
  let this :=
    {| _base := base;
       _minimumNumberOfTicks := minimumNumberOfTicks;
       _d3Scale := set_base scaleLog base;
       _tickGenerator := NoTickGenerator |} in
  let this := _setDomain this (_defaultExtent this) in
  tickGenerator this LogTickGenerator.

Definition getTransformationDomain (this : Log) : list number := domain this.

Section Inherited.

(** The setter [domain(values)] of the base class [QuantitativeScale],
    whose file is not among the sources: [setTransformationDomain] hands its
    argument to it and does nothing else. *)
Variable Scale_domain : Log -> list number -> Log.

Definition setTransformationDomain (this : Log) (domain : list number) : Log :=
  Scale_domain this domain.

End Inherited.

(** The two loops of [_logTickGenerator].  The counter is a number.
    [ticks.push(x)] throws a [RangeError] when the array cannot grow:
    [room] is the number of elements the array can still take, which starts
    at the largest array length of the engine (at most [2^32 - 1], the limit
    of the language).  Each round of a loop pushes one element, so a loop
    whose condition stays true ends in that error. *)
Fixpoint ticks_up (room : nat) (base i j : number) (ticks : list number)
  : result (list number) :=
  if lt i j then
    match room with
    | O => Throw (RangeError "Invalid array length")
    | S room' => ticks_up room' base (i + 1)%float j (ticks ++ [Math.pow base i])
    end
  else Ok ticks.

Fixpoint ticks_down (room : nat) (base i j : number) (ticks : list number)
  : result (list number) :=
  if gt i j then
    match room with
    | O => Throw (RangeError "Invalid array length")
    | S room' => ticks_down room' base (i - 1)%float j (ticks ++ [Math.pow base i])
    end
  else Ok ticks.

(** The power-of-base ticks [_logTickGenerator] collects before it looks at
    [minimumNumberOfTicks]; [max_length] is the largest array length of the
    engine. *)
Definition power_ticks (max_length : nat) (this : Log) : result (list number) :=
  let domain := _getDomain this in
  let min := at_ domain 0 in
  let max := at_ domain 1 in
  let j := Math.ceil (Math.log (ToNumber max) / Math.log (_base this))%float in
  let i := Math.floor (Math.log (ToNumber min) / Math.log (_base this))%float in
  if lt i j then ticks_up max_length (_base this) i j []
  else ticks_down max_length (_base this) i j [].

Section D3.

(** The operations of the backing d3 scale that compute: applying the scale,
    inverting it, its native tick generator and its domain rounding. *)
Variable d3_apply : ScaleLogarithmic -> number -> number.
Variable d3_invert : ScaleLogarithmic -> number -> number.
Variable d3_ticks : ScaleLogarithmic -> number -> list number.
Variable d3_nice : ScaleLogarithmic -> ScaleLogarithmic.

Definition scale (this : Log) (value : number) : number :=
  d3_apply (_d3Scale this) value.

Definition invert (this : Log) (value : number) : number :=
  d3_invert (_d3Scale this) value.

Definition scaleTransformation (this : Log) (value : number) : number :=
  scale this value.

Definition invertedTransformation (this : Log) (value : number) : number :=
  invert this value.

Definition _logTickGenerator (max_length : nat) (this : Log) : result (list number) :=
  match power_ticks max_length this with
  | Throw e => Throw e
  | Ok ticks =>
      if lt (Z2num (Z.of_nat (List.length ticks))) (_minimumNumberOfTicks this)
      then Ok (d3_ticks (_d3Scale this) (_minimumNumberOfTicks this))
      else Ok ticks
  end.

(** [Log._DEFAULT_NUM_TICKS], a static constant of the base class. *)
Variable _DEFAULT_NUM_TICKS : number.

Definition defaultTicks (this : Log) : list number :=
  d3_ticks (_d3Scale this) _DEFAULT_NUM_TICKS.

Definition _niceDomain (this : Log) (domain : list number) : list number :=
  d3_domain (d3_nice (set_domain (_d3Scale this) domain)).

End D3.

(** The tick generator of d3's logarithmic scale ([scale.ticks(count)] in
    d3-scale's [log.js], the version d3 4 ships), in the case it handles by
    enumeration: a positive ascending domain, an integral base, and fewer
    than [count] decades.  From [i = Math.round(log_base u) - 1] up to
    [j = Math.round(log_base v) + 1] exclusive it takes the multiples
    [k * base^i], [1 <= k < base], skips those below the domain and stops a
    decade at the first one above it.  Outside that case the definition
    yields no tick, and no statement below rests on it there.  d3 is a
    library the repository calls, not code of the repository: every
    statement about the [Log] class is generic in the backing scale's tick
    generator, and this definition stands in for it where a statement is
    about the ticks d3 returns. *)
Fixpoint multiples (n : nat) (p k base u v : number) : list number :=
  match n with
  | O => []
  | S n' =>
      if lt k base then
        let t := (p * k)%float in
        if lt t u then multiples n' p (k + 1)%float base u v
        else if gt t v then []
        else t :: multiples n' p (k + 1)%float base u v
      else []
  end.

Fixpoint decades (n : nat) (i j base u v : number) : list number :=
  match n with
  | O => []
  | S n' =>
      if lt i j then
        multiples (Z.to_nat (ToInteger base)) (Math.pow base i) 1 base u v
        ++ decades n' (i + 1)%float j base u v
      else []
  end.

Definition d3_ticks_reference (s : ScaleLogarithmic) (count : number) : list number :=
  let u := ToNumber (at_ (d3_domain s) 0) in
  let v := ToNumber (at_ (d3_domain s) 1) in
  let base := d3_base s in
  let i := (Math.log u / Math.log base)%float in
  let j := (Math.log v / Math.log base)%float in
  if lt 0 u && le u v && isInteger base && lt (j - i)%float count then
    let i' := (Math.round i - 1)%float in
    let j' := (Math.round j + 1)%float in
    decades (Z.to_nat (ToInteger (j' - i')%float)) i' j' base u v
  else [].

(** The ticks the upward loop of [_logTickGenerator] pushes in [n] rounds
    from the counter [zi], [Math.pow(base, zi), ..., Math.pow(base, zi+n-1)],
    and those of the downward loop. *)
Definition powers_up (base : number) (zi : Z) (n : nat) : list number :=
  map (fun k => Math.pow base (Z2num (zi + Z.of_nat k))) (seq 0 n).

Definition powers_down (base : number) (zi : Z) (n : nat) : list number :=
  map (fun k => Math.pow base (Z2num (zi - Z.of_nat k))) (seq 0 n).

(** Whether the values of [sub] occur in [l] in this order, and whether [l]
    is strictly ascending. *)
Fixpoint contains_in_order (sub l : list number) : bool :=
  match sub, l with
  | [], _ => true
  | _ :: _, [] => false
  | x :: sub', y :: l' =>
      if strict_eq x y then contains_in_order sub' l' else contains_in_order sub l'
  end.

Fixpoint ascending (l : list number) : bool :=
  match l with
  | x :: (y :: _) as l' => lt x y && ascending l'
  | _ => true
  end.

End Scales.

(** * Properties *)

(** ** Binary64 facts used below *)

Module FloatFacts.
Import JS.

Open Scope Z_scope.

Lemma digits2_pos_size (p : positive) : digits2_pos p = Pos.size p.
Proof. induction p; simpl; congruence. Qed.

Lemma shiftl_succ (p : positive) (n : N) :
  Pos.shiftl p (N.succ n) = xO (Pos.shiftl p n).
Proof.
  destruct n as [|n]; simpl; [reflexivity|].
  apply Pos.iter_succ.
Qed.

Lemma size_shiftl (p : positive) (n : N) :
  Z.pos (Pos.size (Pos.shiftl p n)) = Z.pos (Pos.size p) + Z.of_N n.
Proof.
  induction n using N.peano_ind.
  - simpl. lia.
  - rewrite shiftl_succ. simpl Pos.size. lia.
Qed.

Lemma shiftl_mul (p : positive) (n : N) :
  Z.pos (Pos.shiftl p n) = Z.pos p * 2 ^ Z.of_N n.
Proof.
  induction n using N.peano_ind.
  - simpl. lia.
  - rewrite shiftl_succ, N2Z.inj_succ, Z.pow_succ_r by lia.
    rewrite Pos2Z.inj_xO, IHn. lia.
Qed.

Lemma size_le_of_lt (p : positive) (k : Z) :
  0 <= k -> Z.pos p < 2 ^ k -> Z.pos (Pos.size p) <= k.
Proof.
  intros Hk Hp.
  destruct (Z.le_gt_cases (Z.pos (Pos.size p)) k) as [|Hgt]; [assumption|exfalso].
  pose proof (Pos.size_le p) as Hs.
  apply Pos2Z.pos_le_pos in Hs.
  rewrite Pos2Z.inj_pow in Hs.
  rewrite (Pos2Z.inj_xO p) in Hs.
  assert (2 ^ (k + 1) <= 2 ^ Z.pos (Pos.size p)) by (apply Z.pow_le_mono_r; lia).
  rewrite Z.pow_add_r, Z.pow_1_r in H by lia.
  lia.
Qed.

Lemma lt_pow_size (p : positive) : Z.pos p < 2 ^ Z.pos (Pos.size p).
Proof.
  pose proof (Pos.size_gt p) as Hs.
  apply Pos2Z.pos_lt_pos in Hs. now rewrite Pos2Z.inj_pow in Hs.
Qed.

(** A canonical mantissa has at most 53 bits. *)
Lemma bounded_size (m : positive) (e : Z) :
  bounded prec emax m e = true -> Z.pos (Pos.size m) <= prec.
Proof.
  unfold bounded, canonical_mantissa, fexp, SpecFloat.emin.
  rewrite digits2_pos_size. intros H.
  apply andb_prop in H. destruct H as [H _]. apply Z.eqb_eq in H. lia.
Qed.

(** Equal finite numbers have the same mantissa and exponent. *)
Lemma SFeqb_finite_inv (s s' : bool) (m m' : positive) (e e' : Z) :
  SFeqb (S754_finite s m e) (S754_finite s' m' e') = true -> e = e' /\ m = m'.
Proof.
  unfold SFeqb, SFcompare.
  destruct s, s'; try discriminate;
    destruct (Z.compare_spec e e') as [He|He|He]; try discriminate;
    change (Pos.compare_cont Eq m m') with (Pos.compare m m');
    destruct (Pos.compare_spec m m') as [Hm|Hm|Hm]; try discriminate;
    intros _; split; assumption.
Qed.

Lemma pos2SF_small (s : bool) (p : positive) :
  Z.pos (Pos.size p) <= prec ->
  pos2SF s p =
  S754_finite s (Pos.shiftl p (Z.to_N (prec - Z.pos (Pos.size p))))
              (Z.pos (Pos.size p) - prec).
Proof.
  intros H. unfold pos2SF. rewrite digits2_pos_size.
  destruct (Z.leb_spec (Z.pos (Pos.size p)) prec); [reflexivity | lia].
Qed.

Lemma pos2SF_small_valid (s : bool) (p : positive) :
  Z.pos (Pos.size p) <= prec -> valid_binary (pos2SF s p) = true.
Proof.
  intros H. rewrite pos2SF_small by assumption.
  unfold valid_binary, bounded, canonical_mantissa, fexp, SpecFloat.emin.
  rewrite digits2_pos_size, size_shiftl, Z2N.id by lia.
  unfold prec, emax in *.
  apply andb_true_intro; split.
  - apply Z.eqb_eq. lia.
  - apply Z.leb_le. lia.
Qed.

(** An integer below [2^53] in magnitude is a binary64 value. *)
Lemma Prim2SF_Z2num_small (z : Z) :
  Z.abs z < 2 ^ prec -> Prim2SF (Z2num z) = Z2SF z.
Proof.
  intros Hz. unfold Z2num. apply Prim2SF_SF2Prim.
  destruct z as [|p|p]; [reflexivity| |];
    apply pos2SF_small_valid, size_le_of_lt; unfold prec in *; lia.
Qed.

(** A finite number with a negative exponent that equals such an integer
    has a mantissa divisible by the scale of its exponent. *)
Lemma SFeqb_Z2SF_integral (s : bool) (m : positive) (e : Z) (z : Z) :
  e < 0 -> Z.abs z < 2 ^ prec ->
  SFeqb (S754_finite s m e) (Z2SF z) = true ->
  Z.pos m mod 2 ^ (- e) = 0.
Proof.
  intros He Hz Heq.
  assert (Hsz : forall p, Z.pos p = Z.abs z -> Z.pos (Pos.size p) <= prec).
  { intros p Hp. apply size_le_of_lt; unfold prec in *; lia. }
  destruct z as [|p|p]; simpl Z2SF in Heq.
  - destruct s; discriminate.
  - rewrite pos2SF_small in Heq by (apply Hsz; reflexivity).
    apply SFeqb_finite_inv in Heq. destruct Heq as [He' Hm].
    subst m. rewrite shiftl_mul, Z2N.id by (specialize (Hsz p eq_refl); lia).
    replace (- e) with (prec - Z.pos (Pos.size p)) by lia.
    apply Z.mod_mul. apply Z.pow_nonzero; [lia|]. specialize (Hsz p eq_refl); lia.
  - rewrite pos2SF_small in Heq by (apply Hsz; reflexivity).
    apply SFeqb_finite_inv in Heq. destruct Heq as [He' Hm].
    subst m. rewrite shiftl_mul, Z2N.id by (specialize (Hsz p eq_refl); lia).
    replace (- e) with (prec - Z.pos (Pos.size p)) by lia.
    apply Z.mod_mul. apply Z.pow_nonzero; [lia|]. specialize (Hsz p eq_refl); lia.
Qed.

(** [p !== Math.floor(p)] holds for every finite [p] that is not an integer. *)
Lemma floor_differs (p : number) (s : bool) (m : positive) (e : Z) :
  Prim2SF p = S754_finite s m e ->
  isInteger p = false ->
  strict_ne p (Math.floor p) = true.
Proof.
  intros Ep Hint.
  pose proof (Prim2SF_valid p) as Hv. rewrite Ep in Hv. simpl in Hv.
  apply bounded_size in Hv.
  unfold isInteger in Hint. rewrite Ep in Hint. simpl in Hint.
  apply orb_false_elim in Hint. destruct Hint as [He Hmod].
  apply Z.leb_gt in He.
  unfold strict_ne, Math.floor. rewrite Ep, (proj2 (Z.leb_gt 0 e) He), Hmod.
  rewrite eqb_spec, Ep.
  apply Z.eqb_neq in Hmod.
  pose proof (lt_pow_size m) as Hm.
  assert (Hm53 : Z.pos m < 2 ^ prec).
  { eapply Z.lt_le_trans; [exact Hm|]. apply Z.pow_le_mono_r; lia. }
  assert (Hpow : 2 <= 2 ^ (- e)).
  { change 2 with (2 ^ 1) at 1. apply Z.pow_le_mono_r; lia. }
  assert (Hq : 0 <= Z.pos m / 2 ^ (- e) < 2 ^ prec - 1).
  { split; [apply Z.div_pos; lia|].
    assert (Z.pos m / 2 ^ (- e) <= Z.pos m / 2).
    { apply Z.div_le_compat_l; lia. }
    assert (Z.pos m / 2 < Z.pos m) by (apply Z.div_lt; lia).
    lia. }
  set (z := if s then - (Z.pos m / 2 ^ (- e)) - 1 else Z.pos m / 2 ^ (- e)).
  assert (Hz : Z.abs z < 2 ^ prec) by (unfold z; destruct s; lia).
  rewrite (Prim2SF_Z2num_small z Hz).
  destruct (SFeqb (S754_finite s m e) (Z2SF z)) eqn:Heq; [|reflexivity].
  exfalso. apply Hmod. eapply SFeqb_Z2SF_integral; eauto.
Qed.

End FloatFacts.

(** ** The formatters *)

Module FormattersSpec.
Import JS Formatters FloatFacts.

Open Scope string_scope.
Open Scope Z_scope.
#[local] Set Warnings "-inexact-float".

Lemma verifyPrecision_rejects (p : number) :
  lt p 0 = true \/ gt p 20 = true \/ isInteger p = false ->
  exists msg, verifyPrecision p = Throw (RangeError msg).
Proof.
  intros H. unfold verifyPrecision.
  destruct (lt p 0 || gt p 20) eqn:E1; [eauto|].
  apply orb_false_elim in E1. destruct E1 as [E0 E20].
  destruct H as [H|[H|H]]; [congruence|congruence|].
  assert (Hne : strict_ne p (Math.floor p) = true).
  { destruct (Prim2SF p) as [s|s| |s m e] eqn:Ep.
    - unfold isInteger in H. rewrite Ep in H. discriminate.
    - exfalso. unfold lt, gt in E0, E20.
      rewrite ltb_spec, Ep in E0, E20.
      destruct s; [vm_compute in E0 | vm_compute in E20]; discriminate.
    - unfold strict_ne, Math.floor. rewrite Ep, eqb_spec, Ep. reflexivity.
    - eapply floor_differs; eauto. }
  rewrite Hne. eauto.
Qed.

Lemma precisions_0_to_20 :
  forallb precision_accepted (map Z.of_nat (seq 0 21)) = true.
Proof. vm_compute. reflexivity. Qed.

Lemma verifyPrecision_accepts (n : Z) :
  0 <= n <= 20 -> verifyPrecision (Z2num n) = Ok tt /\ ToInteger (Z2num n) = n.
Proof.
  intros H.
  pose proof precisions_0_to_20 as Hall.
  rewrite forallb_forall in Hall.
  assert (Hin : In n (map Z.of_nat (seq 0 21))).
  { apply in_map_iff. exists (Z.to_nat n). split; [lia|].
    apply in_seq. lia. }
  specialize (Hall n Hin). unfold precision_accepted in Hall.
  destruct (verifyPrecision (Z2num n)) as [[]|e]; [|discriminate].
  apply Z.eqb_eq in Hall. split; [reflexivity|assumption].
Qed.

(** C5.  A precision that is negative, greater than 20 or not an integer
    makes [fixed] and [general] throw a [RangeError] when the formatter is
    constructed, so no formatter is returned and no value is ever formatted;
    every integer precision from 0 to 20 yields a formatter. *)
Theorem verifyPrecision_eager (p : number) (n : Z) :
  (lt p 0 = true \/ gt p 20 = true \/ isInteger p = false ->
   exists msg, fixed p = Throw (RangeError msg)
            /\ general p = Throw (RangeError msg))
  /\ (0 <= n <= 20 ->
      fixed (Z2num n) = Ok (fun d => Number.toFixed d n)
      /\ exists g, general (Z2num n) = Ok g).
Proof.
  split.
  - intros H. destruct (verifyPrecision_rejects p H) as [msg Hmsg].
    exists msg. unfold fixed, general. rewrite Hmsg. split; reflexivity.
  - intros H. destruct (verifyPrecision_accepts n H) as [Hok Hint].
    unfold fixed, general. rewrite Hok, Hint. simpl. split; eauto.
Qed.

Lemma verifyPrecision_eager_witness :
  (exists msg, fixed (-1) = Throw (RangeError msg) /\ general (-1) = Throw (RangeError msg))
  /\ (exists msg, fixed 21 = Throw (RangeError msg) /\ general 21 = Throw (RangeError msg))
  /\ (exists msg, fixed 1.5 = Throw (RangeError msg) /\ general 1.5 = Throw (RangeError msg))
  /\ fixed 3 = Ok (fun d => Number.toFixed d 3).
Proof.
  split; [|split; [|split]].
  - apply (proj1 (verifyPrecision_eager (-1) 0)). left. reflexivity.
  - apply (proj1 (verifyPrecision_eager 21 0)). right. left. reflexivity.
  - apply (proj1 (verifyPrecision_eager 1.5 0)). right. right. reflexivity.
  - apply (proj2 (verifyPrecision_eager 0 3)). lia.
Defined.

(** *** [exponential] *)

(** Zero, [undefined], NaN and the infinities are stringified directly, at
    every precision. *)
Lemma exponential_special (n : Z) (d : value) :
  0 <= n <= 20 ->
  loose_eq_zero d = true \/ d = VUndefined \/ isNaN (ToNumber d) = true
  \/ strict_eq (Math.abs (ToNumber d)) Infinity = true ->
  call (exponential (Z2num n)) d = Ok (String_ d).
Proof.
  intros Hn H. destruct (verifyPrecision_accepts n Hn) as [Hok _].
  unfold call, exponential. rewrite Hok. unfold bind.
  replace (loose_eq_zero d || is_undefined d || isNaN (ToNumber d)
           || strict_eq (Math.abs (ToNumber d)) Infinity) with true; [reflexivity|].
  symmetry. destruct H as [H|[H|[H|H]]].
  - rewrite H. reflexivity.
  - subst d. reflexivity.
  - rewrite H. now rewrite !orb_true_r.
  - rewrite H. now rewrite !orb_true_r.
Qed.

Lemma exponential_special_witness :
  call (exponential 3) (VNumber 0) = Ok "0"
  /\ call (exponential 3) VUndefined = Ok "undefined"
  /\ call (exponential 3) (VNumber nan) = Ok "NaN"
  /\ call (exponential 3) (VNumber neg_infinity) = Ok "-Infinity".
Proof.
  split; [|split; [|split]].
  - apply (exponential_special 3 (VNumber 0)); [lia|]. left. reflexivity.
  - apply (exponential_special 3 VUndefined); [lia|]. right. left. reflexivity.
  - apply (exponential_special 3 (VNumber nan)); [lia|]. right. right. left. reflexivity.
  - apply (exponential_special 3 (VNumber neg_infinity)); [lia|].
    right. right. right. reflexivity.
Defined.

(** Renderings with a mantissa below 10, as the doc comment describes them. *)
Lemma exponential_examples :
  call (exponential 3) (VNumber 0) = Ok "0"
  /\ call (exponential 3) (VNumber 2500) = Ok "2.5×10³"
  /\ call (exponential 3) (VNumber 100) = Ok "10²"
  /\ call (exponential 3) (VNumber 0.001) = Ok "10⁻³"
  /\ call (exponential 3) (VNumber 12345) = Ok "1.235×10⁴".
Proof. vm_compute. repeat split. Qed.

(** C6.  [exponential(3)(1000)] is not ["10³"]: in binary64
    [Math.log(1000) / Math.log(10)] is 2.9999999999999996, its floor is 2,
    the mantissa becomes 10, and the formatter prints ["10×10²"]; likewise
    ["-10×10²"] for -1000. *)
Theorem exponential_thousand :
  Number.toString (Math.log 1000) = "6.907755278982137"
  /\ Number.toString (Math.log 10) = "2.302585092994046"
  /\ Number.toString (Math.log 1000 / Math.log 10) = "2.9999999999999996"
  /\ Math.floor (Math.log 1000 / Math.log 10) = 2%float
  /\ call (exponential 3) (VNumber 1000) = Ok "10×10²"
  /\ call (exponential 3) (VNumber (-1000)) = Ok "-10×10²".
Proof. vm_compute. repeat split. Qed.

(** *** [percentage] *)

(** C9.  [percentage(0)(0.1)] is exactly ["10%"]: the value is multiplied by
    100, scaled by the power of ten read off the digits after the point in
    [String(d)], passed through [parseInt], scaled back and formatted with
    [toFixed]. *)
Theorem percentage_tenth :
  (forall d,
      let integerPowerTen :=
        Math.pow 10 (Z2num (Str.length (Number.toString d)
                            - (Str.indexOf_dot (Number.toString d) + 1))) in
      call (percentage 0) d =
      Ok (Number.toFixed
            (Number.parseInt (Number.toString (d * 100 * integerPowerTen))
             / integerPowerTen) 0 ++ "%"))
  /\ Number.toString 0.1 = "0.1"
  /\ Math.pow 10 (Z2num (Str.length "0.1" - (Str.indexOf_dot "0.1" + 1))) = 10%float
  /\ Number.toString (0.1 * 100 * 10) = "100"
  /\ call (percentage 0) 0.1%float = Ok "10%".
Proof.
  split.
  - intros d. destruct (verifyPrecision_accepts 0 ltac:(lia)) as [Hok Hint].
    change (Z2num 0) with 0%float in Hok, Hint.
    unfold call, percentage, fixed. rewrite Hok. unfold bind. rewrite Hint.
    reflexivity.
  - vm_compute. repeat split.
Qed.

(** [currency(2, "$", true)(-5)] is ["-$5.00"]: the sign goes outside the
    symbol. *)
Lemma currency_negative :
  call (currency 2 "$" true) (-5)%float = Ok "-$5.00"
  /\ call (currency 2 "$" true) 5%float = Ok "$5.00"
  /\ call (currency 2 "$" false) (-5)%float = Ok "-5.00$".
Proof. vm_compute. repeat split. Qed.

(** *** [shortScale] *)

Lemma append_last_ne (a : string) (c1 c2 : ascii) (b : string) :
  c1 <> c2 -> a ++ String c1 "" <> b ++ String c2 "".
Proof.
  intros Hc. revert b. induction a as [|x a IH]; intros [|y b]; simpl.
  - intros H. inversion H. contradiction.
  - destruct b; discriminate.
  - destruct a; discriminate.
  - intros H. inversion H. eapply IH; eauto.
Qed.

(** The suffix loop leaves [idx] between -1 and 4. *)
Lemma suffix_loop_range (fuel : nat) (a : number) (idx : Z) :
  idx <= 4 -> idx <= suffix_loop fuel a idx <= 4.
Proof.
  revert idx. induction fuel as [|fuel IH]; intros idx H; simpl; [lia|].
  destruct (ge a (Math.pow 1000 (Z2num (idx + 2)))); simpl; [|lia].
  change (Str.length suffixes - 1) with 4.
  destruct (Z.ltb_spec idx 4); [|lia].
  specialize (IH (idx + 1)). lia.
Qed.

(** The [while] loop of [shortScale] has ended when [suffix_loop] returns:
    its condition is false at the [idx] returned. *)
Lemma suffix_loop_exits_from (fuel : nat) (a : number) (idx : Z) :
  4 - idx <= Z.of_nat fuel ->
  ge a (Math.pow 1000 (Z2num (suffix_loop fuel a idx + 2)))
  && (suffix_loop fuel a idx <? Str.length suffixes - 1) = false.
Proof.
  revert idx. induction fuel as [|fuel IH]; intros idx H.
  - simpl suffix_loop. change (Str.length suffixes - 1) with 4.
    destruct (Z.ltb_spec idx 4); [lia|]. apply andb_false_r.
  - simpl suffix_loop.
    destruct (ge a (Math.pow 1000 (Z2num (idx + 2))) && (idx <? 4)) eqn:E.
    + apply IH. lia.
    + exact E.
Qed.

Lemma suffix_loop_exits (a : number) :
  let idx := suffix_loop (String.length suffixes) a (-1) in
  -1 <= idx <= 4
  /\ ge a (Math.pow 1000 (Z2num (idx + 2))) && (idx <? Str.length suffixes - 1) = false.
Proof.
  split.
  - apply suffix_loop_range. lia.
  - apply suffix_loop_exits_from. simpl. lia.
Qed.

(** [general(3)] rounds to at most three decimals and drops trailing zeros. *)
Lemma general_examples :
  call (general 3) (VNumber 1.23456) = Ok "1.235"
  /\ call (general 3) (VNumber 1000) = Ok "1000"
  /\ call (general 3) (VNumber 2.5) = Ok "2.5"
  /\ call (general 3) (VNumber 0.0004) = Ok "0"
  /\ call (general 3) VUndefined = Ok "undefined".
Proof. vm_compute. repeat split. Qed.

Lemma shortScale_max :
  Math.pow 10 (Z2num (3 * (Str.length suffixes + 1))) = 1e18%float.
Proof. vm_compute. reflexivity. Qed.

Section Generic.

Variable d3_format : string -> number -> string.
Variable d3_timeFormat : string -> Date -> string.

(** C7, as the code has it.  A nonzero number whose magnitude is below
    [10^-precision] or at least [10^18] is rendered by the exponent
    formatter [d3.format(".<precision>e")]. *)
Theorem shortScale_scientific_range (n : Z) (num : number) :
  0 <= n <= 20 ->
  lt (Math.abs num) (Math.pow 10 (- Z2num n)) = true
  \/ ge (Math.abs num) 1e18 = true ->
  strict_ne (Math.abs num) 0 = true ->
  call (shortScale d3_format (Z2num n)) num =
  Ok (d3_format ("." ++ Number.toString (Z2num n) ++ "e") num).
Proof.
  intros Hn Hout Hnz. destruct (verifyPrecision_accepts n Hn) as [Hok _].
  unfold call, shortScale. rewrite Hok. unfold bind.
  cbv beta zeta delta [shortScale_closure].
  rewrite shortScale_max, Hnz.
  replace (lt (Math.abs num) (Math.pow 10 (- Z2num n)) || ge (Math.abs num) 1e18)
    with true; [reflexivity|].
  symmetry. destruct Hout as [H|H]; rewrite H; [reflexivity|apply orb_true_r].
Qed.

(** C10.  On a Sunday [multiTime] never picks ["%a %d"]; a Sunday at
    midnight that is not the first of the month is formatted with
    ["%b %d"]. *)
Theorem multiTime_sunday (d : Date) :
  getDay d = 0 ->
  multiTime_specifier d <> "%a %d"
  /\ (getMilliseconds d = 0 -> getSeconds d = 0 -> getMinutes d = 0 ->
      getHours d = 0 -> getDate d <> 1 ->
      multiTime_specifier d = "%b %d"
      /\ multiTime d3_timeFormat d = d3_timeFormat "%b %d" d).
Proof.
  intros Hsun. split.
  - unfold multiTime_specifier, candidateFormats. simpl. rewrite Hsun. simpl.
    destruct (getMilliseconds d =? 0); simpl; [|discriminate].
    destruct (getSeconds d =? 0); simpl; [|discriminate].
    destruct (getMinutes d =? 0); simpl; [|discriminate].
    destruct (getHours d =? 0); simpl; [|discriminate].
    destruct (getDate d =? 1); simpl; [|discriminate].
    destruct (getMonth d =? 0); simpl; discriminate.
  - intros Hms Hs Hmin Hh Hdate.
    assert (Hspec : multiTime_specifier d = "%b %d").
    { unfold multiTime_specifier, candidateFormats. simpl.
      rewrite Hsun, Hms, Hs, Hmin, Hh. simpl.
      apply Z.eqb_neq in Hdate. rewrite Hdate. reflexivity. }
    split; [assumption|]. unfold multiTime. now rewrite Hspec.
Qed.

(** The finest nonzero component decides: nonzero milliseconds give
    [".%L"], and midnight on the first of January gives the year. *)
Theorem multiTime_finest_and_year (d : Date) :
  (getMilliseconds d <> 0 -> multiTime_specifier d = ".%L")
  /\ (getMilliseconds d = 0 -> getSeconds d = 0 -> getMinutes d = 0 ->
      getHours d = 0 -> getDate d = 1 -> getMonth d = 0 ->
      multiTime_specifier d = "%Y").
Proof.
  split.
  - intros H. apply Z.eqb_neq in H.
    unfold multiTime_specifier, candidateFormats. simpl. rewrite H. reflexivity.
  - intros Hms Hs Hmin Hh Hdate Hmonth.
    unfold multiTime_specifier, candidateFormats. simpl.
    rewrite Hms, Hs, Hmin, Hh, Hdate, Hmonth. simpl.
    rewrite andb_false_r. reflexivity.
Qed.

End Generic.

Lemma multiTime_finest_and_year_witness :
  multiTime_specifier (new_Date 2017 0 8 13 45 12 250) = ".%L"
  /\ multiTime_specifier (new_Date 2017 0 1 0 0 0 0) = "%Y".
Proof.
  split.
  - apply (multiTime_finest_and_year (new_Date 2017 0 8 13 45 12 250)). discriminate.
  - apply (multiTime_finest_and_year (new_Date 2017 0 1 0 0 0 0)); reflexivity.
Defined.

Lemma shortScale_scientific_range_witness :
  call (shortScale d3_format_reference 3) 0.0001%float = Ok "1.000e-4"
  /\ call (shortScale d3_format_reference 3) (-2e18)%float = Ok "-2.000e+18".
Proof.
  split.
  - apply (shortScale_scientific_range d3_format_reference 3 0.0001%float);
      [lia | left; reflexivity | reflexivity].
  - apply (shortScale_scientific_range d3_format_reference 3 (-2e18)%float);
      [lia | right; reflexivity | reflexivity].
Defined.

(** C7 as stated fails at both ends of its interval: [shortScale(3)(1e15)]
    is rendered with the suffix Q, and [shortScale(0)(1)], whose magnitude
    equals [10^-0], is rendered in fixed notation; neither is the exponent
    rendering. *)
Lemma shortScale_quadrillion :
  ge (Math.abs 1e15) 1e15 = true
  /\ call (shortScale d3_format_reference 3) 1e15%float = Ok "1.000Q"
  /\ d3_format_reference ".3e" 1e15 = "1.000e+15"
  /\ le (Math.abs 1) (Math.pow 10 (- 0)) = true
  /\ call (shortScale d3_format_reference 0) 1%float = Ok "1"
  /\ d3_format_reference ".0e" 1 = "1e+0".
Proof. vm_compute. repeat split. Qed.

(** With [toFixed] and [toExponential] behind [d3.format]. *)
Lemma shortScale_examples :
  call (shortScale d3_format_reference 3) 999999%float = Ok "999.999K"
  /\ call (shortScale d3_format_reference 0) 999999%float = Ok "1M"
  /\ call (shortScale d3_format_reference 3) 999999.9999%float = Ok "1.000M"
  /\ call (shortScale d3_format_reference 3) (-999999.9999)%float = Ok "-1.000M"
  /\ call (shortScale d3_format_reference 3) 9.999999e17%float = Ok "1.000e+18".
Proof. vm_compute. repeat split. Qed.

Lemma multiTime_sunday_witness :
  let d := new_Date 2017 0 8 0 0 0 0 in
  getDay d = 0
  /\ multiTime_specifier d <> "%a %d"
  /\ multiTime_specifier d = "%b %d".
Proof.
  split; [reflexivity|].
  pose proof (multiTime_sunday (fun _ _ => "") (new_Date 2017 0 8 0 0 0 0) eq_refl)
    as [H1 H2].
  split; [exact H1|].
  apply H2; try reflexivity. discriminate.
Defined.

End FormattersSpec.

(** ** The logarithmic scale *)

Module ScalesSpec.
Import JS Formatters Scales.

Open Scope list_scope.
Open Scope Z_scope.

Lemma ticks_up_mono (room room' : nat) (base i j : number) (l r : list number) :
  ticks_up room base i j l = Ok r -> (room <= room')%nat ->
  ticks_up room' base i j l = Ok r.
Proof.
  revert room' i l. induction room as [|room IH]; intros room' i l H Hle.
  - simpl in H. destruct (lt i j) eqn:E; [discriminate|].
    destruct room'; simpl; rewrite E; assumption.
  - destruct room' as [|room']; [lia|]. simpl in *.
    destruct (lt i j); [|assumption]. apply IH; [assumption|lia].
Qed.

Lemma ticks_down_mono (room room' : nat) (base i j : number) (l r : list number) :
  ticks_down room base i j l = Ok r -> (room <= room')%nat ->
  ticks_down room' base i j l = Ok r.
Proof.
  revert room' i l. induction room as [|room IH]; intros room' i l H Hle.
  - simpl in H. destruct (gt i j) eqn:E; [discriminate|].
    destruct room'; simpl; rewrite E; assumption.
  - destruct room' as [|room']; [lia|]. simpl in *.
    destruct (gt i j); [|assumption]. apply IH; [assumption|lia].
Qed.

(** Ticks that fit into an array fit into every larger one. *)
Lemma power_ticks_mono (room room' : nat) (this : Log) (r : list number) :
  power_ticks room this = Ok r -> (room <= room')%nat ->
  power_ticks room' this = Ok r.
Proof.
  unfold power_ticks. intros H Hle.
  destruct (lt _ _); [eapply ticks_up_mono | eapply ticks_down_mono]; eauto.
Qed.

(** The upward loop started at -Infinity fills the array, whatever its
    size, and ends in the error of [push]. *)
Lemma ticks_up_from_neg_infinity (room : nat) (base j : number) (l : list number) :
  lt neg_infinity j = true ->
  ticks_up room base neg_infinity j l = Throw (RangeError "Invalid array length").
Proof.
  intros Hj. revert l. induction room as [|room IH]; intros l; simpl; rewrite Hj.
  - reflexivity.
  - change (neg_infinity + 1)%float with neg_infinity. apply IH.
Qed.

(** What the power loop and d3's tick enumeration give on base 10 for the
    domains [[1, 1000]] and [[1, 10]]. *)
Lemma power_ticks_1_1000 (this : Log) :
  _base this = 10%float -> _getDomain this = [1; 1000]%float ->
  power_ticks 3 this = Ok [1; 10; 100]%float.
Proof.
  intros Hb Hd. unfold power_ticks. rewrite Hb, Hd. vm_compute. reflexivity.
Qed.

Lemma power_ticks_1_10 (this : Log) :
  _base this = 10%float -> _getDomain this = [1; 10]%float ->
  power_ticks 1 this = Ok [1%float].
Proof.
  intros Hb Hd. unfold power_ticks. rewrite Hb, Hd. vm_compute. reflexivity.
Qed.

Lemma d3_ticks_reference_1_1000 (this : Log) :
  d3_base (_d3Scale this) = 10%float -> _getDomain this = [1; 1000]%float ->
  d3_ticks_reference (_d3Scale this) 4 =
  [1; 2; 3; 4; 5; 6; 7; 8; 9; 10; 20; 30; 40; 50; 60; 70; 80; 90;
   100; 200; 300; 400; 500; 600; 700; 800; 900; 1000]%float.
Proof.
  unfold _getDomain, _backingScaleDomain_get, d3_ticks_reference.
  intros -> ->. vm_compute. reflexivity.
Qed.

Lemma d3_ticks_reference_1_10 (this : Log) :
  d3_base (_d3Scale this) = 10%float -> _getDomain this = [1; 10]%float ->
  d3_ticks_reference (_d3Scale this) 4 = [1; 2; 3; 4; 5; 6; 7; 8; 9; 10]%float.
Proof.
  unfold _getDomain, _backingScaleDomain_get, d3_ticks_reference.
  intros -> ->. vm_compute. reflexivity.
Qed.

Section Generic.

Variable d3_apply : ScaleLogarithmic -> number -> number.
Variable d3_invert : ScaleLogarithmic -> number -> number.
Variable d3_ticks : ScaleLogarithmic -> number -> list number.

(** [scale] and [invert] are the backing scale's: a round trip through the
    [Log] scale is the round trip through its [d3] scale, on the domain,
    range and base the [Log] scale has stored there. *)
Lemma round_trip_is_backing (this : Log) (v x : number) :
  scale d3_apply this (invert d3_invert this v)
  = d3_apply (_d3Scale this) (d3_invert (_d3Scale this) v)
  /\ invert d3_invert this (scale d3_apply this x)
     = d3_invert (_d3Scale this) (d3_apply (_d3Scale this) x)
  /\ scaleTransformation d3_apply this x = scale d3_apply this x
  /\ invertedTransformation d3_invert this v = invert d3_invert this v.
Proof. repeat split. Qed.

(** C2.  On a scale with base 10, the default [minimumNumberOfTicks = 4]
    and domain [[1, 1000]] the power loop collects 1, 10, 100; three are
    fewer than four, so [_logTickGenerator], the generator the constructor
    installs, returns the ticks of the backing d3 scale for four ticks,
    whatever that scale's generator is.  With d3's enumeration these are
    1, 2, ..., 9, 10, 20, ..., 900, 1000: a strictly ascending sequence in
    which 1, 10, 100 and 1000 occur in this order. *)
Theorem logTickGenerator_1_1000 (max_length : nat) (this : Log) :
  (3 <= max_length)%nat ->
  _base this = 10%float ->
  d3_base (_d3Scale this) = 10%float ->
  _minimumNumberOfTicks this = 4%float ->
  _getDomain this = [1; 1000]%float ->
  let native :=
    [1; 2; 3; 4; 5; 6; 7; 8; 9; 10; 20; 30; 40; 50; 60; 70; 80; 90;
     100; 200; 300; 400; 500; 600; 700; 800; 900; 1000]%float in
  _logTickGenerator d3_ticks max_length this = Ok (d3_ticks (_d3Scale this) 4)
  /\ _logTickGenerator d3_ticks_reference max_length this = Ok native
  /\ contains_in_order [1; 10; 100; 1000]%float native = true
  /\ ascending native = true.
Proof.
  intros Hroom Hb Hb3 Hmin Hd native.
  assert (Hp : power_ticks max_length this = Ok [1; 10; 100]%float).
  { apply (power_ticks_mono 3); [|assumption]. now apply power_ticks_1_1000. }
  assert (Hfall : forall ticks : ScaleLogarithmic -> number -> list number,
             _logTickGenerator ticks max_length this
             = Ok (ticks (_d3Scale this) 4%float)).
  { intros ticks. unfold _logTickGenerator. rewrite Hp, Hmin. reflexivity. }
  split; [apply Hfall|]. split.
  - rewrite Hfall. f_equal. now apply d3_ticks_reference_1_1000.
  - split; vm_compute; reflexivity.
Qed.

(** C3.  On base 10, domain [[1, 10]] and [minimumNumberOfTicks = 4] the
    power loop collects the single tick 1; one is fewer than four, so the
    generator discards it and returns what the backing scale's native
    generator yields when asked for [minimumNumberOfTicks] ticks.  With d3's
    enumeration these are the ten ticks 1, 2, ..., 10. *)
Theorem logTickGenerator_narrow_fallback (max_length : nat) (this : Log) :
  (1 <= max_length)%nat ->
  _base this = 10%float ->
  d3_base (_d3Scale this) = 10%float ->
  _minimumNumberOfTicks this = 4%float ->
  _getDomain this = [1; 10]%float ->
  power_ticks max_length this = Ok [1%float]
  /\ lt (Z2num (Z.of_nat (List.length [1%float]))) (_minimumNumberOfTicks this) = true
  /\ _logTickGenerator d3_ticks max_length this =
     Ok (d3_ticks (_d3Scale this) (_minimumNumberOfTicks this))
  /\ _logTickGenerator d3_ticks_reference max_length this =
     Ok [1; 2; 3; 4; 5; 6; 7; 8; 9; 10]%float
  /\ (exists r, _logTickGenerator d3_ticks_reference max_length this = Ok r
                /\ (4 <= List.length r)%nat).
Proof.
  intros Hroom Hb Hb3 Hmin Hd.
  assert (Hp : power_ticks max_length this = Ok [1%float]).
  { apply (power_ticks_mono 1); [|assumption]. now apply power_ticks_1_10. }
  assert (Hfall : forall ticks : ScaleLogarithmic -> number -> list number,
             _logTickGenerator ticks max_length this
             = Ok (ticks (_d3Scale this) (_minimumNumberOfTicks this))).
  { intros ticks. unfold _logTickGenerator. rewrite Hp, Hmin. reflexivity. }
  assert (Href : _logTickGenerator d3_ticks_reference max_length this =
                 Ok [1; 2; 3; 4; 5; 6; 7; 8; 9; 10]%float).
  { rewrite Hfall, Hmin. f_equal. now apply d3_ticks_reference_1_10. }
  split; [exact Hp|]. split; [rewrite Hmin; reflexivity|].
  split; [apply Hfall|]. split; [exact Href|].
  eexists. split; [exact Href|]. simpl. lia.
Qed.

End Generic.

Lemma logTickGenerator_1_1000_witness :
  let this := _backingScaleDomain (new_Log 10 4) [1; 1000]%float in
  _tickGenerator this = LogTickGenerator
  /\ exists r,
       _logTickGenerator d3_ticks_reference 3 this = Ok r
       /\ contains_in_order [1; 10; 100; 1000]%float r = true
       /\ ascending r = true.
Proof.
  split; [reflexivity|].
  pose proof (logTickGenerator_1_1000 d3_ticks_reference 3
                (_backingScaleDomain (new_Log 10 4) [1; 1000]%float)
                ltac:(lia) eq_refl eq_refl eq_refl eq_refl) as H.
  cbv zeta in H. destruct H as (_ & Href & Hin & Hasc).
  eexists. split; [exact Href|]. split; [exact Hin|exact Hasc].
Defined.

Lemma logTickGenerator_narrow_fallback_witness :
  exists r,
    _logTickGenerator d3_ticks_reference 1
      (_backingScaleDomain (new_Log 10 4) [1; 10]%float) = Ok r
    /\ (4 <= List.length r)%nat.
Proof.
  apply (logTickGenerator_narrow_fallback d3_ticks_reference 1
           (_backingScaleDomain (new_Log 10 4) [1; 10]%float));
    first [lia | reflexivity].
Defined.

(** C4 as stated fails: the domains [[-1, 10]] and [[0, 1000]], each with a
    bound that is not positive, are stored and read back. *)
Lemma nonpositive_domain_accepted :
  le (-1) 0 = true
  /\ _getDomain (_backingScaleDomain (new_Log 10 4) [-1; 10]%float) = [-1; 10]%float
  /\ le 0 0 = true
  /\ _getDomain (_backingScaleDomain (new_Log 10 4) [0; 1000]%float) = [0; 1000]%float.
Proof. vm_compute. repeat split. Qed.

End ScalesSpec.

(** ** Order and special values of binary64 numbers *)

Module FloatOrder.
Import JS FloatFacts.

Open Scope Z_scope.

(** A number at least a positive finite number is at least every positive
    finite number of smaller exponent. *)
Lemma SFleb_lower (m1 m2 : positive) (e1 e2 : Z) (a : spec_float) :
  e1 < e2 ->
  SFleb (S754_finite false m2 e2) a = true ->
  SFleb (S754_finite false m1 e1) a = true.
Proof.
  intros He. unfold SFleb, SFcompare.
  destruct a as [s|s| |s m e]; try discriminate.
  - destruct s; auto.
  - destruct s; [discriminate|].
    destruct (Z.compare_spec e2 e) as [H2|H2|H2]; try discriminate; intros _;
      destruct (Z.compare_spec e1 e) as [H1|H1|H1]; try lia; reflexivity.
Qed.

Lemma ge_lower (a c1 c2 : number) (m1 m2 : positive) (e1 e2 : Z) :
  Prim2SF c1 = S754_finite false m1 e1 ->
  Prim2SF c2 = S754_finite false m2 e2 ->
  e1 < e2 ->
  ge a c2 = true -> ge a c1 = true.
Proof.
  unfold ge. rewrite !leb_spec. intros -> -> He. now apply SFleb_lower.
Qed.

Lemma SFltb_of_leb_higher (m1 m2 : positive) (e1 e2 : Z) (a : spec_float) :
  e1 < e2 ->
  SFleb (S754_finite false m2 e2) a = true ->
  SFltb a (S754_finite false m1 e1) = false.
Proof.
  intros He. unfold SFleb, SFltb, SFcompare.
  destruct a as [s|s| |s m e]; try discriminate.
  - destruct s; [discriminate|reflexivity].
  - destruct s; [discriminate|].
    destruct (Z.compare_spec e2 e) as [H2|H2|H2]; try discriminate; intros _;
      destruct (Z.compare_spec e e1) as [H1|H1|H1]; try lia; reflexivity.
Qed.

Lemma SFleb_of_ltb_lower (m1 m2 : positive) (e1 e2 : Z) (a : spec_float) :
  e1 < e2 \/ (e1 = e2 /\ m1 = m2) ->
  SFltb a (S754_finite false m1 e1) = true ->
  SFleb (S754_finite false m2 e2) a = false.
Proof.
  intros He. unfold SFleb, SFltb, SFcompare.
  destruct a as [s|s| |s m e]; try discriminate; try reflexivity.
  - destruct s; [reflexivity|discriminate].
  - destruct s; [reflexivity|].
    destruct He as [He|[-> ->]].
    + destruct (Z.compare_spec e e1) as [H1|H1|H1]; try discriminate; intros _;
        destruct (Z.compare_spec e2 e) as [H2|H2|H2]; try lia; reflexivity.
    + rewrite (Z.compare_antisym e e2).
      destruct (e ?= e2); simpl; try discriminate; try reflexivity.
      change (Pos.compare_cont Eq m2 m) with (Pos.compare m2 m).
      change (Pos.compare_cont Eq m m2) with (Pos.compare m m2).
      rewrite (Pos.compare_antisym m m2).
      destruct (m ?= m2)%positive; simpl; try discriminate; reflexivity.
Qed.

Lemma lt_not_ge (a c : number) (m : positive) (e : Z) :
  Prim2SF c = S754_finite false m e ->
  lt a c = true -> ge a c = false.
Proof.
  unfold lt, ge. rewrite ltb_spec, leb_spec. intros ->.
  apply SFleb_of_ltb_lower. right. split; reflexivity.
Qed.

(** What [x === 0] and [isNaN(x)] say about the value. *)
Lemma strict_eq_zero_inv (x : number) :
  strict_eq x 0 = true -> exists s, Prim2SF x = S754_zero s.
Proof.
  unfold strict_eq. rewrite eqb_spec.
  change (Prim2SF 0) with (S754_zero false).
  destruct (Prim2SF x) as [s|s| |s m e]; intros H;
    try (now exists s); try discriminate; destruct s; discriminate.
Qed.

Lemma isNaN_inv (x : number) : isNaN x = true -> Prim2SF x = S754_nan.
Proof.
  unfold isNaN, is_nan. rewrite eqb_spec.
  destruct (Prim2SF x) as [s|s| |s m e]; intros H; try reflexivity;
    try (destruct s; discriminate).
  unfold SFeqb, SFcompare in H. rewrite Z.compare_refl, Pos.compare_cont_refl in H.
  destruct s; discriminate.
Qed.

Lemma abs_infinity_inv (x : number) :
  strict_eq (Math.abs x) Infinity = true -> exists s, Prim2SF x = S754_infinity s.
Proof.
  unfold strict_eq, Math.abs, Infinity. rewrite eqb_spec, abs_spec.
  change (Prim2SF infinity) with (S754_infinity false).
  destruct (Prim2SF x) as [s|s| |s m e]; intros H; try discriminate.
  now exists s.
Qed.

Lemma nothing_below_neg_infinity (j : number) : gt neg_infinity j = false.
Proof.
  unfold gt. rewrite ltb_spec. change (Prim2SF neg_infinity) with (S754_infinity true).
  destruct (Prim2SF j) as [s|s| |s m e]; try reflexivity; destruct s; reflexivity.
Qed.

Lemma nothing_above_infinity (j : number) : lt infinity j = false.
Proof.
  unfold lt. rewrite ltb_spec. change (Prim2SF infinity) with (S754_infinity false).
  destruct (Prim2SF j) as [s|s| |s m e]; try reflexivity; destruct s; reflexivity.
Qed.

Lemma neg_infinity_div_finite (y : number) (s : bool) (m : positive) (e : Z) :
  Prim2SF y = S754_finite s m e ->
  (neg_infinity / y)%float = if s then infinity else neg_infinity.
Proof.
  intros Hy. apply Prim2SF_inj. rewrite div_spec, Hy.
  destruct s; reflexivity.
Qed.

Lemma pos_size_lower (p : positive) : 2 ^ (Z.pos (Pos.size p) - 1) <= Z.pos p.
Proof.
  pose proof (Pos.size_le p) as Hs.
  apply Pos2Z.pos_le_pos in Hs.
  rewrite Pos2Z.inj_pow in Hs. rewrite (Pos2Z.inj_xO p) in Hs.
  replace (Z.pos (Pos.size p)) with (Z.pos (Pos.size p) - 1 + 1) in Hs by lia.
  rewrite Z.pow_add_r, Z.pow_1_r in Hs by lia. lia.
Qed.

(** Canonical mantissas and exponents of two positive integers compare as
    the integers do. *)
Lemma mantissa_compare (p q : positive) :
  Z.pos (Pos.size p) <= prec -> Z.pos (Pos.size q) <= prec ->
  match Z.pos (Pos.size p) - prec ?= Z.pos (Pos.size q) - prec with
  | Eq => Pos.compare_cont Eq
            (Pos.shiftl p (Z.to_N (prec - Z.pos (Pos.size p))))
            (Pos.shiftl q (Z.to_N (prec - Z.pos (Pos.size q))))
  | Lt => Lt
  | Gt => Gt
  end = (Z.pos p ?= Z.pos q).
Proof.
  intros Hp Hq.
  pose proof (lt_pow_size p) as Hp1. pose proof (pos_size_lower p) as Hp2.
  pose proof (lt_pow_size q) as Hq1. pose proof (pos_size_lower q) as Hq2.
  destruct (Z.compare_spec (Z.pos (Pos.size p) - prec) (Z.pos (Pos.size q) - prec))
    as [He|He|He].
  - assert (Hs : Pos.size q = Pos.size p) by lia. rewrite Hs.
    change (Pos.compare_cont Eq ?a ?b) with (Pos.compare a b).
    rewrite Pos2Z.inj_compare, !shiftl_mul.
    assert (Hk : 0 < 2 ^ Z.of_N (Z.to_N (prec - Z.pos (Pos.size p))))
      by (apply Z.pow_pos_nonneg; lia).
    destruct (Z.compare_spec (Z.pos p) (Z.pos q)) as [Hc|Hc|Hc];
      [apply Z.compare_eq_iff | apply Z.compare_lt_iff | apply Z.compare_gt_iff]; nia.
  - symmetry. apply Z.compare_lt_iff.
    assert (2 ^ Z.pos (Pos.size p) <= 2 ^ (Z.pos (Pos.size q) - 1))
      by (apply Z.pow_le_mono_r; lia).
    lia.
  - symmetry. apply Z.compare_gt_iff.
    assert (2 ^ Z.pos (Pos.size q) <= 2 ^ (Z.pos (Pos.size p) - 1))
      by (apply Z.pow_le_mono_r; lia).
    lia.
Qed.

(** Integers below [2^53] in magnitude are ordered as numbers the way they
    are ordered as integers. *)
Lemma SFltb_Z2SF (a b : Z) :
  Z.abs a < 2 ^ prec -> Z.abs b < 2 ^ prec ->
  SFltb (Z2SF a) (Z2SF b) = (a <? b).
Proof.
  intros Ha Hb.
  assert (Hsz : forall p, Z.pos p < 2 ^ prec -> Z.pos (Pos.size p) <= prec).
  { intros p Hp. apply size_le_of_lt; unfold prec in *; lia. }
  unfold Z.ltb.
  destruct a as [|p|p], b as [|q|q]; simpl Z2SF;
    rewrite ?pos2SF_small by (apply Hsz; lia);
    unfold SFltb, SFcompare; try reflexivity.
  - rewrite mantissa_compare by (apply Hsz; lia). reflexivity.
  - change (Z.neg p ?= Z.neg q) with (CompOpp (Z.pos p ?= Z.pos q)).
    rewrite <- (mantissa_compare p q) by (apply Hsz; lia).
    destruct (_ ?= _); try reflexivity.
Qed.

Lemma lt_Z2num (a b : Z) :
  Z.abs a < 2 ^ prec -> Z.abs b < 2 ^ prec ->
  lt (Z2num a) (Z2num b) = (a <? b).
Proof.
  intros Ha Hb. unfold lt.
  rewrite ltb_spec, !Prim2SF_Z2num_small by assumption.
  now apply SFltb_Z2SF.
Qed.

(** Equal finite numbers have the same sign. *)
Lemma SFeqb_finite_sign (s s' : bool) (m m' : positive) (e e' : Z) :
  SFeqb (S754_finite s m e) (S754_finite s' m' e') = true -> s = s'.
Proof.
  unfold SFeqb, SFcompare. destruct s, s'; try reflexivity; discriminate.
Qed.

(** A number that [===] an integer below [2^53] in magnitude is that
    integer, or is -0 when the integer is 0. *)
Lemma strict_eq_Z2num_inv (x : number) (z : Z) :
  Z.abs z < 2 ^ prec ->
  strict_eq x (Z2num z) = true ->
  x = Z2num z \/ (z = 0 /\ x = neg_zero).
Proof.
  intros Hz H.
  destruct (Z.eq_dec z 0) as [->|Hnz].
  - destruct (strict_eq_zero_inv x H) as [s Hs].
    destruct s; [right|left]; (try split; try reflexivity);
      apply Prim2SF_inj; rewrite Hs; reflexivity.
  - left. apply Prim2SF_inj. rewrite (Prim2SF_Z2num_small z Hz).
    unfold strict_eq in H.
    rewrite eqb_spec, (Prim2SF_Z2num_small z Hz) in H.
    assert (Hsz : forall p, Z.pos p = Z.abs z -> Z.pos (Pos.size p) <= prec).
    { intros p Hp. apply size_le_of_lt; unfold prec in *; lia. }
    destruct z as [|p|p]; [contradiction| |]; simpl Z2SF in *;
      rewrite pos2SF_small in * by (apply Hsz; reflexivity);
      destruct (Prim2SF x) as [s|s| |s m e]; try discriminate;
      try (destruct s; discriminate);
      pose proof (SFeqb_finite_sign _ _ _ _ _ _ H) as Hs;
      apply SFeqb_finite_inv in H; destruct H as [He Hm]; subst; reflexivity.
Qed.

(** The two zeros compare alike. *)
Lemma lt_neg_zero_l (y : number) : lt neg_zero y = lt 0 y.
Proof.
  unfold lt. rewrite !ltb_spec.
  change (Prim2SF neg_zero) with (S754_zero true).
  change (Prim2SF 0) with (S754_zero false).
  destruct (Prim2SF y); reflexivity.
Qed.

Lemma lt_neg_zero_r (y : number) : lt y neg_zero = lt y 0.
Proof.
  unfold lt. rewrite !ltb_spec.
  change (Prim2SF neg_zero) with (S754_zero true).
  change (Prim2SF 0) with (S754_zero false).
  destruct (Prim2SF y); reflexivity.
Qed.

Lemma nan_div (y : number) : (nan / y)%float = nan.
Proof.
  apply Prim2SF_inj. rewrite div_spec.
  change (Prim2SF nan) with S754_nan. reflexivity.
Qed.


End FloatOrder.

(** ** The formatters, beyond single inputs *)

Module FormattersLaws.
Import JS Formatters FloatFacts FloatOrder FormattersSpec.

Open Scope string_scope.
Open Scope Z_scope.
#[local] Set Warnings "-inexact-float".

(** *** Precision *)

(** The precisions [verifyPrecision] lets through are the integers 0 to 20
    and nothing else. *)
Theorem verifyPrecision_accepted_integer (p : number) :
  verifyPrecision p = Ok tt -> exists n, 0 <= n <= 20 /\ num2Z p = Some n.
Proof.
  intros Hok.
  assert (Hint : isInteger p = true).
  { destruct (isInteger p) eqn:E; [reflexivity|].
    destruct (verifyPrecision_rejects p (or_intror (or_intror E))) as [msg H].
    congruence. }
  unfold verifyPrecision in Hok.
  destruct (lt p 0 || gt p 20) eqn:E1; [discriminate|].
  apply orb_false_elim in E1. destruct E1 as [E0 E20].
  unfold lt, gt in E0, E20. rewrite ltb_spec in E0, E20.
  pose proof (Prim2SF_valid p) as Hv.
  unfold isInteger in Hint. unfold num2Z.
  destruct (Prim2SF p) as [s|s| |s m e] eqn:Ep; try discriminate.
  - exists 0. split; [lia|reflexivity].
  - simpl in Hv. apply bounded_size in Hv.
    pose proof (lt_pow_size m) as Hm.
    assert (Hm53 : Z.pos m < 2 ^ 53).
    { eapply Z.lt_le_trans; [exact Hm|]. apply Z.pow_le_mono_r; unfold prec in *; lia. }
    destruct s; [vm_compute in E0; discriminate|].
    change (Prim2SF 20) with (S754_finite false 5629499534213120 (-48)) in E20.
    change (Prim2SF 0) with (S754_zero false) in E0.
    unfold SFltb, SFcompare in E20.
    change (Pos.compare_cont Eq 5629499534213120 m)
      with (Pos.compare 5629499534213120 m) in E20.
    cbv [SF_is_integer] in Hint. cbv [SF_to_Z].
    assert (He48 : e <= -48).
    { destruct (Z.compare_spec (-48) e) as [He|He|He]; try discriminate; lia. }
    destruct (Z.leb_spec 0 e) as [|Hneg]; [lia|].
    rewrite orb_false_l in Hint. rewrite Hint.
    eexists. split; [|reflexivity]. cbv [cond_Zopp].
    assert (Hpow : 2 ^ 48 <= 2 ^ (- e)) by (apply Z.pow_le_mono_r; lia).
    change (2 ^ 48) with 281474976710656 in Hpow.
    change (2 ^ 53) with 9007199254740992 in Hm53.
    split; [apply Z.div_pos; lia|].
    apply Z.lt_succ_r. apply Z.div_lt_upper_bound; [lia|].
    destruct (Z.compare_spec (-48) e) as [He|He|He]; try discriminate.
    + subst e. change (2 ^ (- -48)) with 281474976710656.
      assert (Hle : (m <= 5629499534213120)%positive).
      { destruct (Pos.compare_spec 5629499534213120 m) as [Hc|Hc|Hc].
        - subst m. apply Pos.le_refl.
        - exfalso. clear - E20. discriminate E20.
        - apply Pos.lt_le_incl. exact Hc. }
      clear E20 E0 Ep Hv Hint Hm Hpow.
      apply Pos2Z.pos_le_pos in Hle. unfold Z.succ. lia.
    + assert (Hpow' : 2 ^ 49 <= 2 ^ (- e)) by (apply Z.pow_le_mono_r; lia).
      change (2 ^ 49) with 562949953421312 in Hpow'. nia.
Qed.

Lemma verifyPrecision_accepted_integer_witness :
  exists n, 0 <= n <= 20 /\ num2Z 3 = Some n.
Proof.
  apply (verifyPrecision_accepted_integer 3). vm_compute. reflexivity.
Defined.

(** *** Strings that are never empty *)

Lemma append_nonempty_l (a b : string) : a <> "" -> a ++ b <> "".
Proof. destruct a; [congruence|discriminate]. Qed.

Lemma append_nonempty_r (a b : string) : b <> "" -> a ++ b <> "".
Proof. destruct a; [simpl; auto|discriminate]. Qed.

Lemma of_Z_nonempty (z : Z) : Str.of_Z z <> "".
Proof.
  unfold Str.of_Z, NilZero.string_of_int.
  destruct (Z.to_int z) as [d|d]; [|discriminate].
  unfold NilZero.string_of_uint. destruct d; discriminate.
Qed.

Lemma format_digits_nonempty (s k n : Z) : Number.format_digits s k n <> "".
Proof.
  unfold Number.format_digits.
  pose proof (of_Z_nonempty s) as Hs.
  repeat match goal with |- context [if ?c then _ else _] => destruct c end.
  - now apply append_nonempty_l.
  - apply append_nonempty_r. discriminate.
  - discriminate.
  - now apply append_nonempty_l.
  - apply append_nonempty_r. discriminate.
Qed.

Lemma toString_nonempty (x : number) : Number.toString x <> "".
Proof.
  unfold Number.toString.
  destruct (Prim2SF x) as [s|s| |s m e]; try discriminate.
  - destruct s; discriminate.
  - destruct (Number.shortest m e) as [[d k] n].
    apply append_nonempty_r, format_digits_nonempty.
Qed.

Lemma pad_left0_nonempty (w : nat) (s : string) : s <> "" -> Str.pad_left0 w s <> "".
Proof. intros H. unfold Str.pad_left0. now apply append_nonempty_r. Qed.

Lemma toFixed_nonempty (x : number) (f : Z) : Number.toFixed x f <> "".
Proof.
  unfold Number.toFixed.
  destruct (Prim2SF x) as [s|s| |s m e] eqn:E.
  - destruct (f =? 0); discriminate.
  - apply toString_nonempty.
  - apply toString_nonempty.
  - destruct (PrimFloat.abs x <? 1e21)%float.
    + destruct (Number.times_pow10 m e f) as [a b].
      apply append_nonempty_r.
      destruct (f =? 0).
      * apply pad_left0_nonempty, of_Z_nonempty.
      * apply append_nonempty_r. discriminate.
    + apply toString_nonempty.
Qed.

(** *** [currency] *)

(** At every valid precision and for every number, [currency] renders the
    magnitude with [toFixed], puts the symbol before or after it, and puts
    the minus sign of a negative number in front of both; the branch for an
    empty rendering is never taken. *)
Theorem currency_sign_outside_symbol
  (n : Z) (symbol : string) (prefix : bool) (d : number) :
  0 <= n <= 20 ->
  call (currency (Z2num n) symbol prefix) d =
  Ok ((if lt d 0 then "-" else "")
      ++ (if prefix
          then symbol ++ Number.toFixed (Math.abs d) n
          else Number.toFixed (Math.abs d) n ++ symbol)).
Proof.
  intros Hn. destruct (verifyPrecision_accepts n Hn) as [Hok Hint].
  unfold call, currency, fixed. rewrite Hok. unfold bind. rewrite Hint.
  pose proof (toFixed_nonempty (Math.abs d) n) as Hne.
  apply String.eqb_neq in Hne. rewrite Hne. cbv [negb].
  destruct (lt d 0); reflexivity.
Qed.

Lemma currency_sign_outside_symbol_witness :
  call (currency 2 "$" true) (-5)%float = Ok "-$5.00"
  /\ call (currency 0 "EUR" false) 1234.5%float = Ok "1235EUR".
Proof.
  split.
  - apply (currency_sign_outside_symbol 2 "$" true (-5)%float). lia.
  - apply (currency_sign_outside_symbol 0 "EUR" false 1234.5%float). lia.
Defined.

(** *** [general] *)

Lemma multipliers_finite :
  forallb (fun n => match Prim2SF (Math.pow 10 (Z2num n)) with
                    | S754_finite false _ _ => true
                    | _ => false
                    end)
          (map Z.of_nat (seq 0 21)) = true.
Proof. vm_compute. reflexivity. Qed.

(** [Math.pow(10, n)] is positive and finite for a valid precision. *)
Lemma multiplier_positive (n : Z) :
  0 <= n <= 20 ->
  exists m e, Prim2SF (Math.pow 10 (Z2num n)) = S754_finite false m e.
Proof.
  intros Hn. pose proof multipliers_finite as H. rewrite forallb_forall in H.
  specialize (H n). cbv beta in H.
  destruct (Prim2SF (Math.pow 10 (Z2num n))) as [s|s| |s m e];
    try (destruct s); try (now exists m, e); exfalso;
    (assert (Hf : false = true); [apply H|discriminate Hf]);
    apply in_map_iff; exists (Z.to_nat n); (split; [lia|apply in_seq; lia]).
Qed.

Lemma round_special (x : number) :
  (forall s m e, Prim2SF x <> S754_finite s m e) -> Math.round x = x.
Proof.
  intros H. unfold Math.round.
  destruct (Prim2SF x) as [s|s| |s m e] eqn:E; try reflexivity.
  exfalso. now apply (H s m e).
Qed.

(** At every valid precision [general] returns [String(d)] for [d] a zero,
    [undefined], NaN or an infinity: scaling, rounding and scaling back
    leave these values as they are. *)
Theorem general_special (n : Z) (d : value) :
  0 <= n <= 20 ->
  loose_eq_zero d = true \/ d = VUndefined \/ isNaN (ToNumber d) = true
  \/ strict_eq (Math.abs (ToNumber d)) Infinity = true ->
  call (general (Z2num n)) d = Ok (String_ d).
Proof.
  intros Hn H. destruct (verifyPrecision_accepts n Hn) as [Hok _].
  unfold call, general. rewrite Hok. unfold bind.
  destruct d as [|x]; [reflexivity|].
  cbn [typeof ToNumber String_ loose_eq_zero] in *.
  change ("number" =? "number")%string with true. cbv iota. f_equal.
  destruct (multiplier_positive n Hn) as (m & e & Hm).
  assert (Hx : exists sf, Prim2SF x = sf
                          /\ (sf = S754_nan \/ (exists s, sf = S754_zero s)
                              \/ exists s, sf = S754_infinity s)).
  { exists (Prim2SF x). split; [reflexivity|].
    destruct H as [H|[H|[H|H]]]; [|discriminate| |].
    - right. left. now apply strict_eq_zero_inv.
    - left. now apply isNaN_inv.
    - right. right. now apply abs_infinity_inv. }
  destruct Hx as (sf & Hsf & Hcase).
  assert (Hmul : Prim2SF (x * Math.pow 10 (Z2num n)) = sf).
  { rewrite mul_spec, Hsf, Hm.
    destruct Hcase as [->|[[s ->]|[s ->]]]; try reflexivity; destruct s; reflexivity. }
  assert (Hround : Math.round (x * Math.pow 10 (Z2num n))
                   = (x * Math.pow 10 (Z2num n))%float).
  { apply round_special. intros s' m' e'. rewrite Hmul.
    destruct Hcase as [->|[[s ->]|[s ->]]]; discriminate. }
  rewrite Hround.
  assert (Hdiv : Prim2SF (x * Math.pow 10 (Z2num n) / Math.pow 10 (Z2num n)) = sf).
  { rewrite div_spec, Hmul, Hm.
    destruct Hcase as [->|[[s ->]|[s ->]]]; try reflexivity; destruct s; reflexivity. }
  unfold Number.toString. rewrite Hdiv, Hsf. reflexivity.
Qed.

Lemma general_special_witness :
  call (general 3) (VNumber nan) = Ok "NaN"
  /\ call (general 0) (VNumber neg_infinity) = Ok "-Infinity"
  /\ call (general 20) (VNumber (-0)) = Ok "0"
  /\ call (general 2) VUndefined = Ok "undefined".
Proof.
  split; [|split; [|split]].
  - apply (general_special 3 (VNumber nan)); [lia|]. right. right. left. reflexivity.
  - apply (general_special 0 (VNumber neg_infinity)); [lia|].
    right. right. right. reflexivity.
  - apply (general_special 20 (VNumber (-0))); [lia|]. left. reflexivity.
  - apply (general_special 2 VUndefined); [lia|]. right. left. reflexivity.
Defined.

(** *** [unicode_superscript] *)

Lemma append_assoc3 (a b c : string) : (a ++ b) ++ c = a ++ (b ++ c).
Proof. induction a as [|x a IH]; simpl; [reflexivity|now rewrite IH]. Qed.

Lemma unicode_superscript_app (a b : string) :
  unicode_superscript (a ++ b) = unicode_superscript a ++ unicode_superscript b.
Proof.
  induction a as [|c a IH]; simpl; [reflexivity|].
  rewrite IH. now rewrite append_assoc3.
Qed.

(** A table entry has no character the table maps. *)
Lemma superscript_fixed (c : ascii) (t : string) :
  superscript_dict c = Some t -> unicode_superscript t = t.
Proof.
  destruct c as [[] [] [] [] [] [] [] []]; simpl; intros H;
    try discriminate; injection H as <-; reflexivity.
Qed.

Lemma superscript_unmapped (c : ascii) :
  superscript_dict c = None -> unicode_superscript (String c "") = String c "".
Proof. intros H. simpl. now rewrite H. Qed.

(** [unicode_superscript] works character by character, so it distributes
    over concatenation, and applying it twice is applying it once. *)
Theorem unicode_superscript_idempotent (a b : string) :
  unicode_superscript (a ++ b) = unicode_superscript a ++ unicode_superscript b
  /\ unicode_superscript (unicode_superscript a) = unicode_superscript a.
Proof.
  split; [apply unicode_superscript_app|].
  induction a as [|c a IH]; [reflexivity|].
  simpl. rewrite unicode_superscript_app, IH.
  destruct (superscript_dict c) as [t|] eqn:E.
  - now rewrite (superscript_fixed c t E).
  - now rewrite (superscript_unmapped c E).
Qed.

Lemma In_app_string (c : ascii) (a b : string) :
  In c (list_ascii_of_string (a ++ b)) ->
  In c (list_ascii_of_string a) \/ In c (list_ascii_of_string b).
Proof.
  induction a as [|x a IH]; simpl; [auto|].
  intros [H|H]; [auto|]. destruct (IH H); auto.
Qed.

Lemma superscript_entry_unmapped (c : ascii) (t : string) (x : ascii) :
  superscript_dict c = Some t -> In x (list_ascii_of_string t) ->
  superscript_dict x = None.
Proof.
  destruct c as [[] [] [] [] [] [] [] []]; simpl; intros H;
    try discriminate; injection H as <-; simpl;
    intros Hin; repeat (destruct Hin as [<-|Hin]; [reflexivity|]); contradiction.
Qed.

(** No digit, sign or point is left in the output of
    [unicode_superscript]: every character of the result is one the table
    does not map. *)
Theorem unicode_superscript_leaves_none (s : string) (x : ascii) :
  In x (list_ascii_of_string (unicode_superscript s)) -> superscript_dict x = None.
Proof.
  induction s as [|c s IH]; simpl; [contradiction|].
  intros H. apply In_app_string in H. destruct H as [H|H]; [|auto].
  destruct (superscript_dict c) as [t|] eqn:E.
  - eapply superscript_entry_unmapped; eauto.
  - simpl in H. destruct H as [<-|[]]. exact E.
Qed.

Lemma unicode_superscript_leaves_none_witness :
  In "226"%char (list_ascii_of_string (unicode_superscript "-12"))
  /\ superscript_dict "226"%char = None.
Proof.
  split; [simpl; left; reflexivity|].
  apply (unicode_superscript_leaves_none "-12" "226"%char). simpl. left. reflexivity.
Defined.

(** *** The suffix loop of [shortScale] *)

Lemma threshold_finite (k : Z) :
  0 <= k <= 5 ->
  exists m, Prim2SF (tier_threshold k) = S754_finite false m (10 * k - 43).
Proof.
  intros Hk.
  assert (Hcases : k = 0 \/ k = 1 \/ k = 2 \/ k = 3 \/ k = 4 \/ k = 5) by lia.
  destruct Hcases as [->|[->|[->|[->|[->| ->]]]]];
    eexists; vm_compute; reflexivity.
Qed.

Lemma thresholds_descend (a : number) (k : Z) :
  0 <= k <= 4 ->
  ge a (tier_threshold (k + 1)) = true -> ge a (tier_threshold k) = true.
Proof.
  intros Hk.
  destruct (threshold_finite k ltac:(lia)) as [m1 H1].
  destruct (threshold_finite (k + 1) ltac:(lia)) as [m2 H2].
  apply (ge_lower a _ _ _ _ _ _ H1 H2). lia.
Qed.

Lemma suffix_loop_step (fuel : nat) (a : number) (k : Z) :
  0 <= k <= 4 ->
  suffix_loop (S fuel) a (k - 1) =
  if ge a (tier_threshold k) then suffix_loop fuel a (k + 1 - 1) else k - 1.
Proof.
  intros Hk. unfold tier_threshold. simpl suffix_loop.
  replace (k - 1 + 2) with (k + 1) by lia.
  replace (k - 1 + 1) with (k + 1 - 1) by lia.
  destruct (Z.ltb_spec (k - 1) 4); [|lia].
  now rewrite andb_true_r.
Qed.

Lemma suffix_loop_tiers (a : number) :
  suffix_loop 5 a (0 - 1) =
  if ge a (tier_threshold 0) then if ge a (tier_threshold 1) then
  if ge a (tier_threshold 2) then if ge a (tier_threshold 3) then
  if ge a (tier_threshold 4) then 4 else 3 else 2 else 1 else 0 else -1.
Proof.
  rewrite (suffix_loop_step 4 a 0) by lia.
  rewrite (suffix_loop_step 3 a (0 + 1)) by lia.
  rewrite (suffix_loop_step 2 a (0 + 1 + 1)) by lia.
  rewrite (suffix_loop_step 1 a (0 + 1 + 1 + 1)) by lia.
  rewrite (suffix_loop_step 0 a (0 + 1 + 1 + 1 + 1)) by lia.
  reflexivity.
Qed.

(** The loop stops at an index of at least [k] exactly when the magnitude
    has reached the [k]-th threshold. *)
Lemma suffix_tier (a : number) (k : Z) :
  0 <= k <= 4 ->
  (k <= suffix_loop (String.length suffixes) a (-1)
   <-> ge a (tier_threshold k) = true).
Proof.
  intros Hk.
  pose proof (thresholds_descend a 3 ltac:(lia)) as H43.
  pose proof (thresholds_descend a 2 ltac:(lia)) as H32.
  pose proof (thresholds_descend a 1 ltac:(lia)) as H21.
  pose proof (thresholds_descend a 0 ltac:(lia)) as H10.
  change (3 + 1) with 4 in H43. change (2 + 1) with 3 in H32.
  change (1 + 1) with 2 in H21. change (0 + 1) with 1 in H10.
  change (suffix_loop (String.length suffixes) a (-1)) with (suffix_loop 5 a (0 - 1)).
  rewrite suffix_loop_tiers.
  assert (Hcases : k = 0 \/ k = 1 \/ k = 2 \/ k = 3 \/ k = 4) by lia.
  clear Hk. revert H43 H32 H21 H10.
  destruct Hcases as [->|[->|[->|[->| ->]]]];
  generalize (ge a (tier_threshold 0)), (ge a (tier_threshold 1)),
    (ge a (tier_threshold 2)), (ge a (tier_threshold 3)), (ge a (tier_threshold 4));
  intros [] [] [] [] [] H43 H32 H21 H10;
  try (specialize (H43 eq_refl); discriminate);
  try (specialize (H32 eq_refl); discriminate);
  try (specialize (H21 eq_refl); discriminate);
  try (specialize (H10 eq_refl); discriminate);
  split; intros; try lia; try congruence.
Qed.

Lemma suffix_loop_tier (a : number) (k : Z) :
  0 <= k <= 4 ->
  ge a (tier_threshold k) = true ->
  lt a (tier_threshold (k + 1)) = true ->
  suffix_loop (String.length suffixes) a (-1) = k.
Proof.
  intros Hk Hge Hlt.
  pose proof (suffix_loop_range (String.length suffixes) a (-1) ltac:(lia)) as Hr.
  pose proof (proj2 (suffix_tier a k Hk) Hge) as Hlow.
  destruct (Z.eq_dec k 4) as [->|Hk4]; [lia|].
  destruct (threshold_finite (k + 1) ltac:(lia)) as [m Hm].
  pose proof (lt_not_ge a (tier_threshold (k + 1)) m _ Hm Hlt) as Hnge.
  destruct (Z_le_gt_dec (k + 1) (suffix_loop (String.length suffixes) a (-1)))
    as [Hle|Hgt]; [|lia].
  apply (suffix_tier a (k + 1)) in Hle; [|lia].
  congruence.
Qed.

Lemma mins_below_thousand :
  forallb (fun n => match Prim2SF (Math.pow 10 (- Z2num n)) with
                    | S754_finite false _ e => e <? -43
                    | _ => false
                    end)
          (map Z.of_nat (seq 0 21)) = true.
Proof. vm_compute. reflexivity. Qed.

(** [Math.pow(10, -precision)] is a positive number below 1000. *)
Lemma min_finite (n : Z) :
  0 <= n <= 20 ->
  exists m e, Prim2SF (Math.pow 10 (- Z2num n)) = S754_finite false m e /\ e < -43.
Proof.
  intros Hn. pose proof mins_below_thousand as H. rewrite forallb_forall in H.
  specialize (H n). cbv beta in H.
  assert (Hin : In n (map Z.of_nat (seq 0 21))).
  { apply in_map_iff. exists (Z.to_nat n). split; [lia|]. apply in_seq. lia. }
  specialize (H Hin).
  destruct (Prim2SF (Math.pow 10 (- Z2num n))) as [s|s| |s m e]; try discriminate.
  destruct s; [discriminate|]. exists m, e. split; [reflexivity|].
  now apply Z.ltb_lt.
Qed.

Lemma shortScale_max_threshold :
  Math.pow 10 (Z2num (3 * (Str.length suffixes + 1))) = tier_threshold 5.
Proof. vm_compute. reflexivity. Qed.

(** Below the first threshold the formatter returns the plain fixed
    rendering, whatever the two d3 formatters and the bounds are. *)
Lemma shortScale_closure_plain
  (exponentFormatter fixedFormatter : number -> string) (min num : number) :
  lt (Math.abs num) min = false \/ strict_eq (Math.abs num) 0 = true ->
  ge (Math.abs num) 1000 = false ->
  (gt num 0 && String.eqb (Str.substr0 4 (fixedFormatter num)) "1000")
  || (lt num 0 && String.eqb (Str.substr0 5 (fixedFormatter num)) "-1000") = false ->
  shortScale_closure exponentFormatter fixedFormatter (tier_threshold 5) min num
  = fixedFormatter num.
Proof.
  intros Hlow Hhigh Hplain.
  cbv beta zeta delta [shortScale_closure].
  change 1000%float with (tier_threshold 0) in Hhigh.
  assert (Hmax : ge (Math.abs num) (tier_threshold 5) = false).
  { destruct (ge (Math.abs num) (tier_threshold 5)) eqn:E; [|reflexivity].
    rewrite <- Hhigh. symmetry.
    destruct (threshold_finite 0 ltac:(lia)) as [m0 H0].
    destruct (threshold_finite 5 ltac:(lia)) as [m5 H5].
    apply (ge_lower _ (tier_threshold 0) (tier_threshold 5) m0 m5 _ _ H0 H5);
      [reflexivity|exact E]. }
  assert (Hcond : (lt (Math.abs num) min || ge (Math.abs num) (tier_threshold 5))
                  && strict_ne (Math.abs num) 0 = false).
  { rewrite Hmax. destruct Hlow as [H|H].
    - rewrite H. reflexivity.
    - unfold strict_ne. unfold strict_eq in H. rewrite H. apply andb_false_r. }
  rewrite Hcond.
  assert (Hidx : suffix_loop (String.length suffixes) (Math.abs num) (-1) = -1).
  { pose proof (suffix_loop_range (String.length suffixes) (Math.abs num) (-1)
                  ltac:(lia)) as Hr.
    destruct (Z_le_gt_dec 0 (suffix_loop (String.length suffixes) (Math.abs num) (-1)))
      as [Hle|Hgt]; [|lia].
    apply (suffix_tier (Math.abs num) 0) in Hle; [|lia].
    congruence. }
  rewrite Hidx. change (-1 =? -1) with true. cbv iota.
  rewrite Hplain. reflexivity.
Qed.

(** The first pass of the formatter for a magnitude in the [k]-th suffix
    tier, and the second pass when the first one displays 1000, whatever
    the two d3 formatters are. *)
Lemma shortScale_tier_result
  (exponentFormatter fixedFormatter : number -> string) (n k : Z) (num : number) :
  0 <= n <= 20 -> 0 <= k <= 4 ->
  ge (Math.abs num) (tier_threshold k) = true ->
  lt (Math.abs num) (tier_threshold (k + 1)) = true ->
  shortScale_closure exponentFormatter fixedFormatter (tier_threshold 5)
                     (Math.pow 10 (- Z2num n)) num =
  if displays_1000 num
       (fixedFormatter (num / Math.pow 1000 (Z2num (k + 1)))%float ++ suffix_at k)
  then if k <? 4
       then fixedFormatter (num / Math.pow 1000 (Z2num (k + 1 + 1)))%float
            ++ suffix_at (k + 1)
       else exponentFormatter num
  else fixedFormatter (num / Math.pow 1000 (Z2num (k + 1)))%float ++ suffix_at k.
Proof.
  intros Hn Hk Hge Hlt.
  cbv beta zeta delta [shortScale_closure displays_1000].
  destruct (min_finite n Hn) as (mm & em & Hmin & Hem).
  destruct (threshold_finite k ltac:(lia)) as [mk Hmk].
  destruct (threshold_finite (k + 1) ltac:(lia)) as [mk1 Hmk1].
  assert (Hlow : lt (Math.abs num) (Math.pow 10 (- Z2num n)) = false).
  { unfold lt. rewrite ltb_spec, Hmin.
    unfold ge in Hge. rewrite leb_spec, Hmk in Hge.
    eapply SFltb_of_leb_higher; [|exact Hge]. lia. }
  assert (Hhigh : ge (Math.abs num) (tier_threshold 5) = false).
  { destruct (Z.eq_dec k 4) as [->|Hk4].
    - change (4 + 1) with 5 in Hlt. eapply lt_not_ge; [exact Hmk1|exact Hlt].
    - destruct (threshold_finite 5 ltac:(lia)) as [m5 H5].
      unfold ge. rewrite leb_spec, H5.
      unfold lt in Hlt. rewrite ltb_spec, Hmk1 in Hlt.
      eapply SFleb_of_ltb_lower; [|exact Hlt]. left. lia. }
  rewrite Hlow, Hhigh. cbn [orb andb].
  rewrite (suffix_loop_tier (Math.abs num) k Hk Hge Hlt).
  destruct (Z.eqb_spec k (-1)) as [|_]; [lia|].
  change (Str.length suffixes - 1) with 4. reflexivity.
Qed.

Lemma shortScale_plain_result
  (exponentFormatter fixedFormatter : number -> string) (min num : number) :
  lt (Math.abs num) min = false ->
  lt (Math.abs num) (tier_threshold 0) = true ->
  shortScale_closure exponentFormatter fixedFormatter (tier_threshold 5) min num =
  if displays_1000 num (fixedFormatter num)
  then fixedFormatter (num / Math.pow 1000 (Z2num (-1 + 1 + 1)))%float
       ++ suffix_at (-1 + 1)
  else fixedFormatter num.
Proof.
  intros Hlow Hlt.
  cbv beta zeta delta [shortScale_closure displays_1000].
  destruct (threshold_finite 0 ltac:(lia)) as [m0 H0].
  destruct (threshold_finite 5 ltac:(lia)) as [m5 H5].
  pose proof (lt_not_ge _ _ m0 _ H0 Hlt) as Hhigh.
  assert (Hmax : ge (Math.abs num) (tier_threshold 5) = false).
  { destruct (ge (Math.abs num) (tier_threshold 5)) eqn:E; [|reflexivity].
    rewrite <- Hhigh. symmetry.
    apply (ge_lower _ (tier_threshold 0) (tier_threshold 5) m0 m5 _ _ H0 H5);
      [reflexivity|exact E]. }
  rewrite Hlow, Hmax. cbn [orb andb].
  assert (Hidx : suffix_loop (String.length suffixes) (Math.abs num) (-1) = -1).
  { pose proof (suffix_loop_range (String.length suffixes) (Math.abs num) (-1)
                  ltac:(lia)) as Hr.
    destruct (Z_le_gt_dec 0 (suffix_loop (String.length suffixes) (Math.abs num) (-1)))
      as [Hle|Hgt]; [|lia].
    apply (suffix_tier (Math.abs num) 0) in Hle; [|lia].
    congruence. }
  rewrite Hidx. change (-1 =? -1) with true. cbv iota.
  change (-1 <? Str.length suffixes - 1) with true. cbv iota. reflexivity.
Qed.

Section Generic.

Variable d3_format : string -> number -> string.
Variable d3_timeFormat : string -> Date -> string.

(** Every formatter constructor that takes a precision checks it before it
    returns a formatter: a precision below 0, above 20 or not integral makes
    each of them throw the [RangeError] of [verifyPrecision], and an integer
    from 0 to 20 makes each of them return a formatter. *)
Theorem constructors_validate_precision
  (p : number) (n : Z) (symbol : string) (prefix : bool) :
  (lt p 0 = true \/ gt p 20 = true \/ isInteger p = false ->
   exists msg,
     verifyPrecision p = Throw (RangeError msg)
     /\ fixed p = Throw (RangeError msg)
     /\ general p = Throw (RangeError msg)
     /\ currency p symbol prefix = Throw (RangeError msg)
     /\ exponential p = Throw (RangeError msg)
     /\ percentage p = Throw (RangeError msg)
     /\ siSuffix d3_format p = Throw (RangeError msg)
     /\ shortScale d3_format p = Throw (RangeError msg))
  /\ (0 <= n <= 20 ->
      (exists f, fixed (Z2num n) = Ok f)
      /\ (exists f, general (Z2num n) = Ok f)
      /\ (exists f, currency (Z2num n) symbol prefix = Ok f)
      /\ (exists f, exponential (Z2num n) = Ok f)
      /\ (exists f, percentage (Z2num n) = Ok f)
      /\ (exists f, siSuffix d3_format (Z2num n) = Ok f)
      /\ (exists f, shortScale d3_format (Z2num n) = Ok f)).
Proof.
  split.
  - intros H. destruct (verifyPrecision_rejects p H) as [msg Hmsg].
    exists msg.
    unfold currency, exponential, percentage, siSuffix, shortScale, general, fixed.
    rewrite Hmsg. repeat split.
  - intros H. destruct (verifyPrecision_accepts n H) as [Hok _].
    unfold currency, exponential, percentage, siSuffix, shortScale, general, fixed.
    rewrite Hok. unfold bind. repeat split; eexists; reflexivity.
Qed.

Lemma shortScale_unfold (n : Z) (num : number) :
  0 <= n <= 20 ->
  call (shortScale d3_format (Z2num n)) num =
  Ok (shortScale_closure (d3_format ("." ++ Number.toString (Z2num n) ++ "e"))
                         (d3_format ("." ++ Number.toString (Z2num n) ++ "f"))
                         (tier_threshold 5) (Math.pow 10 (- Z2num n)) num).
Proof.
  intros Hn. destruct (verifyPrecision_accepts n Hn) as [Hok _].
  unfold call, shortScale. rewrite Hok. unfold bind.
  now rewrite shortScale_max_threshold.
Qed.

(** A number whose magnitude lies between [1000^(k+1)] and [1000^(k+2)],
    for [k] from 0 to 4, is divided by [1000^(k+1)], rendered in fixed
    notation and given the [k]-th of the suffixes K, M, B, T, Q, unless that
    rendering starts with 1000. *)
Theorem shortScale_tier (n k : Z) (num : number) :
  0 <= n <= 20 -> 0 <= k <= 4 ->
  ge (Math.abs num) (Math.pow 1000 (Z2num (k + 1))) = true ->
  lt (Math.abs num) (Math.pow 1000 (Z2num (k + 2))) = true ->
  let fixedFormatter := d3_format ("." ++ Number.toString (Z2num n) ++ "f") in
  let output :=
    fixedFormatter (num / Math.pow 1000 (Z2num (k + 1)))%float ++ suffix_at k in
  (gt num 0 && String.eqb (Str.substr0 4 output) "1000")
  || (lt num 0 && String.eqb (Str.substr0 5 output) "-1000") = false ->
  call (shortScale d3_format (Z2num n)) num = Ok output.
Proof.
  intros Hn Hk Hge Hlt fixedFormatter output Hplain.
  rewrite shortScale_unfold by assumption. f_equal.
  cbv beta zeta delta [shortScale_closure].
  fold (tier_threshold k) in Hge.
  replace (k + 2) with (k + 1 + 1) in Hlt by lia.
  fold (tier_threshold (k + 1)) in Hlt.
  destruct (min_finite n Hn) as (mm & em & Hmin & Hem).
  destruct (threshold_finite k ltac:(lia)) as [mk Hmk].
  destruct (threshold_finite (k + 1) ltac:(lia)) as [mk1 Hmk1].
  assert (Hlow : lt (Math.abs num) (Math.pow 10 (- Z2num n)) = false).
  { unfold lt. rewrite ltb_spec, Hmin.
    unfold ge in Hge. rewrite leb_spec, Hmk in Hge.
    eapply SFltb_of_leb_higher; [|exact Hge]. lia. }
  assert (Hhigh : ge (Math.abs num) (tier_threshold 5) = false).
  { destruct (Z.eq_dec k 4) as [->|Hk4].
    - change (4 + 1) with 5 in Hlt. eapply lt_not_ge; [exact Hmk1|exact Hlt].
    - destruct (threshold_finite 5 ltac:(lia)) as [m5 H5].
      unfold ge. rewrite leb_spec, H5.
      unfold lt in Hlt. rewrite ltb_spec, Hmk1 in Hlt.
      eapply SFleb_of_ltb_lower; [|exact Hlt]. left. lia. }
  rewrite Hlow, Hhigh. cbn [orb andb].
  rewrite (suffix_loop_tier (Math.abs num) k Hk Hge Hlt).
  destruct (Z.eqb_spec k (-1)) as [|_]; [lia|].
  fold fixedFormatter. fold output. rewrite Hplain. reflexivity.
Qed.

(** A number of magnitude below 1000 that is not below [10^-precision] (or
    is zero) gets the plain fixed rendering with no suffix, unless that
    rendering starts with 1000. *)
Theorem shortScale_below_thousand (n : Z) (num : number) :
  0 <= n <= 20 ->
  lt (Math.abs num) (Math.pow 10 (- Z2num n)) = false
  \/ strict_eq (Math.abs num) 0 = true ->
  ge (Math.abs num) 1000 = false ->
  let fixedFormatter := d3_format ("." ++ Number.toString (Z2num n) ++ "f") in
  (gt num 0 && String.eqb (Str.substr0 4 (fixedFormatter num)) "1000")
  || (lt num 0 && String.eqb (Str.substr0 5 (fixedFormatter num)) "-1000") = false ->
  call (shortScale d3_format (Z2num n)) num = Ok (fixedFormatter num).
Proof.
  intros Hn Hlow Hhigh fixedFormatter Hplain.
  rewrite shortScale_unfold by assumption. f_equal.
  now apply shortScale_closure_plain.
Qed.

(** Zero of either sign and NaN are never rendered in scientific notation
    and never get a suffix: [shortScale] hands them to the fixed formatter
    of d3. *)
Theorem shortScale_zero_nan (n : Z) (num : number) :
  0 <= n <= 20 ->
  strict_eq num 0 = true \/ isNaN num = true ->
  call (shortScale d3_format (Z2num n)) num =
  Ok (d3_format ("." ++ Number.toString (Z2num n) ++ "f") num).
Proof.
  intros Hn Hnum.
  assert (Hsf : (exists s, Prim2SF num = S754_zero s) \/ Prim2SF num = S754_nan).
  { destruct Hnum as [H|H]; [left; now apply strict_eq_zero_inv
                            |right; now apply isNaN_inv]. }
  assert (Hgt : gt num 0 = false).
  { unfold gt. rewrite ltb_spec. destruct Hsf as [[s ->]| ->]; reflexivity. }
  assert (Hlt : lt num 0 = false).
  { unfold lt. rewrite ltb_spec. destruct Hsf as [[s ->]| ->]; reflexivity. }
  rewrite shortScale_unfold by assumption. f_equal.
  apply shortScale_closure_plain.
  - destruct Hsf as [[s Hs]|Hs].
    + right. unfold strict_eq, Math.abs. rewrite eqb_spec, abs_spec, Hs. reflexivity.
    + left. unfold lt, Math.abs. rewrite ltb_spec, abs_spec, Hs. reflexivity.
  - unfold ge, Math.abs. rewrite leb_spec, abs_spec.
    destruct Hsf as [[s ->]| ->]; reflexivity.
  - rewrite Hgt, Hlt. reflexivity.
Qed.

(** The specifier [multiTime] picks, characterised for each of the eight
    specifiers by the date's components: the finest nonzero one among
    milliseconds, seconds, minutes and hours decides; at midnight the day of
    the month is shown unless it is the first (with the weekday unless it is
    a Sunday), then the month unless it is January, then the year. *)
Theorem multiTime_decision_table (d : Date) :
  let zero := getMilliseconds d = 0 /\ getSeconds d = 0
              /\ getMinutes d = 0 /\ getHours d = 0 in
  multiTime d3_timeFormat d = d3_timeFormat (multiTime_specifier d) d
  /\ (multiTime_specifier d = ".%L" <-> getMilliseconds d <> 0)
  /\ (multiTime_specifier d = ":%S" <-> getMilliseconds d = 0 /\ getSeconds d <> 0)
  /\ (multiTime_specifier d = "%I:%M" <->
      getMilliseconds d = 0 /\ getSeconds d = 0 /\ getMinutes d <> 0)
  /\ (multiTime_specifier d = "%I %p" <->
      getMilliseconds d = 0 /\ getSeconds d = 0 /\ getMinutes d = 0 /\ getHours d <> 0)
  /\ (multiTime_specifier d = "%a %d" <-> zero /\ getDay d <> 0 /\ getDate d <> 1)
  /\ (multiTime_specifier d = "%b %d" <-> zero /\ getDay d = 0 /\ getDate d <> 1)
  /\ (multiTime_specifier d = "%b" <-> zero /\ getDate d = 1 /\ getMonth d <> 0)
  /\ (multiTime_specifier d = "%Y" <-> zero /\ getDate d = 1 /\ getMonth d = 0).
Proof.
  cbv zeta. split; [reflexivity|].
  unfold multiTime_specifier, candidateFormats. cbn [filter predicate specifier].
  destruct (Z.eqb_spec (getMilliseconds d) 0) as [Hms|Hms]; cbn [negb andb];
    [|repeat split; intros; try discriminate; tauto].
  destruct (Z.eqb_spec (getSeconds d) 0) as [Hs|Hs]; cbn [negb andb];
    [|repeat split; intros; try discriminate; tauto].
  destruct (Z.eqb_spec (getMinutes d) 0) as [Hmi|Hmi]; cbn [negb andb];
    [|repeat split; intros; try discriminate; tauto].
  destruct (Z.eqb_spec (getHours d) 0) as [Hh|Hh]; cbn [negb andb];
    [|repeat split; intros; try discriminate; tauto].
  destruct (Z.eqb_spec (getDate d) 1) as [Hdate|Hdate]; cbn [negb andb].
  - rewrite andb_false_r.
    destruct (Z.eqb_spec (getMonth d) 0) as [Hmo|Hmo]; cbn [negb andb];
      repeat split; intros; try discriminate; tauto.
  - rewrite andb_true_r.
    destruct (Z.eqb_spec (getDay d) 0) as [Hday|Hday]; cbn [negb andb];
      repeat split; intros; try discriminate; tauto.
Qed.

(** C8.  For every d3 formatter, [shortScale(3)(999999)] is the rendering
    of 999.999 with the suffix K unless that rendering displays 1000, and
    then it is the rendering of 0.999999 with the suffix M; in neither case
    is it ["1000K"].  In general, at every valid precision, when the first
    rendering of a number of the fixed range displays 1000 (or -1000 for a
    negative number), the formatter returns the rendering of the number
    divided by the next power of 1000 with the next suffix, or the exponent
    rendering when the tier was the last one.  Tier [k = -1] is the one
    without suffix (magnitude below 1000), tiers 0 to 4 are K, M, B, T, Q. *)
Theorem shortScale_bumps_tier (n k : Z) (num : number) :
  (let fixedFormatter := d3_format ("." ++ Number.toString 3 ++ "f") in
   let output := fixedFormatter (999999 / Math.pow 1000 (Z2num 1))%float ++ "K" in
   call (shortScale d3_format 3) 999999%float =
     Ok (if displays_1000 999999 output
         then fixedFormatter (999999 / Math.pow 1000 (Z2num 2))%float ++ "M"
         else output)
   /\ call (shortScale d3_format 3) 999999%float <> Ok "1000K")
  /\ (0 <= n <= 20 -> -1 <= k <= 4 ->
      let absNum := Math.abs num in
      let exponentFormatter := d3_format ("." ++ Number.toString (Z2num n) ++ "e") in
      let fixedFormatter := d3_format ("." ++ Number.toString (Z2num n) ++ "f") in
      (if k =? -1 then negb (lt absNum (Math.pow 10 (- Z2num n)))
       else ge absNum (Math.pow 1000 (Z2num (k + 1)))) = true ->
      lt absNum (Math.pow 1000 (Z2num (k + 2))) = true ->
      let output :=
        if k =? -1 then fixedFormatter num
        else fixedFormatter (num / Math.pow 1000 (Z2num (k + 1)))%float
             ++ suffix_at k in
      displays_1000 num output = true ->
      call (shortScale d3_format (Z2num n)) num =
      Ok (if k <? 4
          then fixedFormatter (num / Math.pow 1000 (Z2num (k + 2)))%float
               ++ suffix_at (k + 1)
          else exponentFormatter num)).
Proof.
  split.
  - cbv zeta.
    assert (Hcall :
      call (shortScale d3_format 3) 999999%float =
      Ok (if displays_1000 999999
               (d3_format ("." ++ Number.toString 3 ++ "f")
                  (999999 / Math.pow 1000 (Z2num 1))%float ++ "K")
          then d3_format ("." ++ Number.toString 3 ++ "f")
                 (999999 / Math.pow 1000 (Z2num 2))%float ++ "M"
          else d3_format ("." ++ Number.toString 3 ++ "f")
                 (999999 / Math.pow 1000 (Z2num 1))%float ++ "K")).
    { change 3%float with (Z2num 3). rewrite shortScale_unfold by lia.
      reflexivity. }
    split; [exact Hcall|]. rewrite Hcall.
    set (ff := d3_format _).
    destruct (displays_1000 999999 (ff (999999 / Math.pow 1000 (Z2num 1))%float ++ "K"))
      eqn:E; intros H; injection H as H.
    + revert H. apply (append_last_ne _ "M" "K" "1000"). discriminate.
    + rewrite H in E. vm_compute in E. discriminate.
  - intros Hn Hk absNum exponentFormatter fixedFormatter Hlow Hlt output Hbump.
    rewrite shortScale_unfold by assumption. f_equal.
    fold exponentFormatter. fold fixedFormatter.
    destruct (Z.eqb_spec k (-1)) as [->|Hk1].
    + change (-1 + 2) with (0 + 1) in Hlt. fold (tier_threshold 0) in Hlt.
      apply negb_true_iff in Hlow.
      rewrite shortScale_plain_result by assumption.
      unfold output in Hbump. rewrite Hbump. reflexivity.
    + replace (k + 2) with (k + 1 + 1) in * by lia.
      fold (tier_threshold k) in Hlow. fold (tier_threshold (k + 1)) in Hlt.
      rewrite (shortScale_tier_result _ _ n k) by (assumption || lia).
      unfold output in Hbump. rewrite Hbump. reflexivity.
Qed.

End Generic.

Lemma constructors_validate_precision_witness :
  (exists msg, percentage 1.5 = Throw (RangeError msg)
               /\ shortScale d3_format_reference 1.5 = Throw (RangeError msg))
  /\ (exists f, currency 2 "$" true = Ok f).
Proof.
  split.
  - destruct (proj1 (constructors_validate_precision d3_format_reference 1.5 0 "$" true))
      as [msg H].
    + right. right. reflexivity.
    + exists msg. split; apply H.
  - apply (proj2 (constructors_validate_precision d3_format_reference 0 2 "$" true)). lia.
Defined.

Lemma shortScale_tier_witness :
  call (shortScale d3_format_reference 2) 1234567%float = Ok "1.23M"
  /\ call (shortScale d3_format_reference 1) (-98760)%float = Ok "-98.8K".
Proof.
  split.
  - etransitivity.
    + apply (shortScale_tier d3_format_reference 2 1 1234567%float);
        [lia | lia | vm_compute; reflexivity | vm_compute; reflexivity
         | vm_compute; reflexivity].
    + vm_compute. reflexivity.
  - etransitivity.
    + apply (shortScale_tier d3_format_reference 1 0 (-98760)%float);
        [lia | lia | vm_compute; reflexivity | vm_compute; reflexivity
         | vm_compute; reflexivity].
    + vm_compute. reflexivity.
Defined.

Lemma shortScale_below_thousand_witness :
  call (shortScale d3_format_reference 2) 12.345%float = Ok "12.35"
  /\ call (shortScale d3_format_reference 0) (-999)%float = Ok "-999".
Proof.
  split.
  - etransitivity.
    + apply (shortScale_below_thousand d3_format_reference 2 12.345%float);
        [lia | left; vm_compute; reflexivity | vm_compute; reflexivity
         | vm_compute; reflexivity].
    + vm_compute. reflexivity.
  - etransitivity.
    + apply (shortScale_below_thousand d3_format_reference 0 (-999)%float);
        [lia | left; vm_compute; reflexivity | vm_compute; reflexivity
         | vm_compute; reflexivity].
    + vm_compute. reflexivity.
Defined.

Lemma shortScale_zero_nan_witness :
  call (shortScale d3_format_reference 3) 0%float = Ok "0.000"
  /\ call (shortScale d3_format_reference 3) (-0)%float = Ok "0.000"
  /\ call (shortScale d3_format_reference 3) nan = Ok "NaN".
Proof.
  split; [|split].
  - etransitivity.
    + apply (shortScale_zero_nan d3_format_reference 3 0%float);
        [lia | left; reflexivity].
    + vm_compute. reflexivity.
  - etransitivity.
    + apply (shortScale_zero_nan d3_format_reference 3 (-0)%float);
        [lia | left; reflexivity].
    + vm_compute. reflexivity.
  - etransitivity.
    + apply (shortScale_zero_nan d3_format_reference 3 nan);
        [lia | right; reflexivity].
    + vm_compute. reflexivity.
Defined.

Lemma shortScale_bumps_tier_witness :
  call (shortScale d3_format_reference 3) 999999.9999%float = Ok "1.000M"
  /\ call (shortScale d3_format_reference 3) 9.999999e17%float = Ok "1.000e+18"
  /\ call (shortScale d3_format_reference 3) (-999.9999)%float = Ok "-1.000K".
Proof.
  split; [|split].
  - etransitivity.
    + apply (proj2 (shortScale_bumps_tier d3_format_reference 3 0 999999.9999%float));
        [lia | lia | vm_compute; reflexivity | vm_compute; reflexivity
         | vm_compute; reflexivity].
    + vm_compute. reflexivity.
  - etransitivity.
    + apply (proj2 (shortScale_bumps_tier d3_format_reference 3 4 9.999999e17%float));
        [lia | lia | vm_compute; reflexivity | vm_compute; reflexivity
         | vm_compute; reflexivity].
    + vm_compute. reflexivity.
  - etransitivity.
    + apply (proj2 (shortScale_bumps_tier d3_format_reference 3 (-1) (-999.9999)%float));
        [lia | lia | vm_compute; reflexivity | vm_compute; reflexivity
         | vm_compute; reflexivity].
    + vm_compute. reflexivity.
Defined.

End FormattersLaws.

(** ** The logarithmic scale, beyond single domains *)

Module ScalesLaws.
Import JS Formatters Scales FloatFacts FloatOrder ScalesSpec.

Open Scope list_scope.
Open Scope Z_scope.

(** *** The loops of [_logTickGenerator] on integral bounds *)

Lemma counters_exact :
  forallb (fun z =>
             PrimFloat.Leibniz.eqb (Z2num z + 1)%float (Z2num (z + 1))
             && PrimFloat.Leibniz.eqb (Z2num z - 1)%float (Z2num (z - 1)))
          (map (fun k => Z.of_nat k - 2000) (seq 0 4001)) = true.
Proof. vm_compute. reflexivity. Qed.

(** [++i] and [--i] on a counter between -2000 and 2000 are exact. *)
Lemma counter_steps (z : Z) :
  -2000 <= z <= 2000 ->
  (Z2num z + 1)%float = Z2num (z + 1) /\ (Z2num z - 1)%float = Z2num (z - 1).
Proof.
  intros Hz. pose proof counters_exact as H. rewrite forallb_forall in H.
  specialize (H z). cbv beta in H.
  rewrite andb_true_iff, !FloatAxioms.Leibniz.eqb_spec in H. apply H.
  apply in_map_iff. exists (Z.to_nat (z + 2000)). split; [lia|].
  apply in_seq. lia.
Qed.

Lemma ticks_up_eq (room : nat) (base i j : number) (l : list number) :
  ticks_up room base i j l =
  if lt i j then
    match room with
    | O => Throw (RangeError "Invalid array length")
    | S room' => ticks_up room' base (i + 1)%float j (l ++ [Math.pow base i])
    end
  else Ok l.
Proof. destruct room; reflexivity. Qed.

Lemma ticks_down_eq (room : nat) (base i j : number) (l : list number) :
  ticks_down room base i j l =
  if gt i j then
    match room with
    | O => Throw (RangeError "Invalid array length")
    | S room' => ticks_down room' base (i - 1)%float j (l ++ [Math.pow base i])
    end
  else Ok l.
Proof. destruct room; reflexivity. Qed.

Lemma small_exponent (z : Z) : -2001 <= z <= 2001 -> Z.abs z < 2 ^ prec.
Proof. intros H. change (2 ^ prec) with 9007199254740992. lia. Qed.

Lemma powers_up_succ (base : number) (zi : Z) (n : nat) :
  powers_up base zi (S n) = Math.pow base (Z2num zi) :: powers_up base (zi + 1) n.
Proof.
  unfold powers_up. cbn [seq map]. rewrite Z.add_0_r. f_equal.
  rewrite <- seq_shift, map_map. apply map_ext. intros k. do 2 f_equal. lia.
Qed.

Lemma powers_down_succ (base : number) (zi : Z) (n : nat) :
  powers_down base zi (S n) = Math.pow base (Z2num zi) :: powers_down base (zi - 1) n.
Proof.
  unfold powers_down. cbn [seq map]. rewrite Z.sub_0_r. f_equal.
  rewrite <- seq_shift, map_map. apply map_ext. intros k. do 2 f_equal. lia.
Qed.

Lemma ticks_up_integral (base : number) (n : nat) :
  forall (room : nat) (zi : Z) (l : list number),
    -2000 <= zi -> zi + Z.of_nat n <= 2000 -> (n <= room)%nat ->
    ticks_up room base (Z2num zi) (Z2num (zi + Z.of_nat n)) l
    = Ok (l ++ powers_up base zi n).
Proof.
  induction n as [|n IH]; intros room zi l Hlo Hhi Hroom; rewrite ticks_up_eq.
  - rewrite lt_Z2num by (apply small_exponent; lia).
    rewrite (proj2 (Z.ltb_ge _ _)) by lia.
    unfold powers_up. cbn [seq map]. now rewrite app_nil_r.
  - rewrite lt_Z2num by (apply small_exponent; lia).
    rewrite (proj2 (Z.ltb_lt _ _)) by lia.
    destruct room as [|room]; [lia|].
    rewrite (proj1 (counter_steps zi ltac:(lia))).
    replace (zi + Z.of_nat (S n)) with (zi + 1 + Z.of_nat n) by lia.
    rewrite IH by lia.
    rewrite powers_up_succ, <- app_assoc. reflexivity.
Qed.

Lemma ticks_down_integral (base : number) (n : nat) :
  forall (room : nat) (zi : Z) (l : list number),
    zi <= 2000 -> -2000 <= zi - Z.of_nat n -> (n <= room)%nat ->
    ticks_down room base (Z2num zi) (Z2num (zi - Z.of_nat n)) l
    = Ok (l ++ powers_down base zi n).
Proof.
  induction n as [|n IH]; intros room zi l Hhi Hlo Hroom; rewrite ticks_down_eq;
    unfold gt.
  - rewrite lt_Z2num by (apply small_exponent; lia).
    rewrite (proj2 (Z.ltb_ge _ _)) by lia.
    unfold powers_down. cbn [seq map]. now rewrite app_nil_r.
  - rewrite lt_Z2num by (apply small_exponent; lia).
    rewrite (proj2 (Z.ltb_lt _ _)) by lia.
    destruct room as [|room]; [lia|].
    rewrite (proj2 (counter_steps zi ltac:(lia))).
    replace (zi - Z.of_nat (S n)) with (zi - 1 - Z.of_nat n) by lia.
    rewrite IH by lia.
    rewrite powers_down_succ, <- app_assoc. reflexivity.
Qed.

(** A loop bound of -0 ([Math.ceil] of a value between -1 and 0, or
    [Math.floor] of -0) behaves as the bound 0: the comparisons, the first
    power and the next counter are the same. *)
Lemma ticks_up_neg_zero_i (room : nat) (base j : number) (l : list number) :
  ticks_up room base neg_zero j l = ticks_up room base 0 j l.
Proof.
  rewrite (ticks_up_eq room base neg_zero), (ticks_up_eq room base 0), lt_neg_zero_l.
  change (neg_zero + 1)%float with (0 + 1)%float.
  change (Math.pow base neg_zero) with (Math.pow base 0). reflexivity.
Qed.

Lemma ticks_down_neg_zero_i (room : nat) (base j : number) (l : list number) :
  ticks_down room base neg_zero j l = ticks_down room base 0 j l.
Proof.
  rewrite (ticks_down_eq room base neg_zero), (ticks_down_eq room base 0).
  unfold gt. rewrite lt_neg_zero_r.
  change (neg_zero - 1)%float with (0 - 1)%float.
  change (Math.pow base neg_zero) with (Math.pow base 0). reflexivity.
Qed.

Lemma ticks_up_neg_zero_j (room : nat) (base i : number) (l : list number) :
  ticks_up room base i neg_zero l = ticks_up room base i 0 l.
Proof.
  revert i l. induction room as [|room IH]; intros i l; simpl;
    rewrite lt_neg_zero_r; [reflexivity|].
  now rewrite IH.
Qed.

Lemma ticks_down_neg_zero_j (room : nat) (base i : number) (l : list number) :
  ticks_down room base i neg_zero l = ticks_down room base i 0 l.
Proof.
  revert i l. induction room as [|room IH]; intros i l; simpl;
    unfold gt; rewrite lt_neg_zero_l; [reflexivity|].
  now rewrite IH.
Qed.

Lemma loops_on_integers (room : nat) (base i j : number) (zi zj : Z) :
  i = Z2num zi \/ (zi = 0 /\ i = neg_zero) ->
  j = Z2num zj \/ (zj = 0 /\ j = neg_zero) ->
  lt i j = lt (Z2num zi) (Z2num zj)
  /\ ticks_up room base i j [] = ticks_up room base (Z2num zi) (Z2num zj) []
  /\ ticks_down room base i j [] = ticks_down room base (Z2num zi) (Z2num zj) [].
Proof.
  intros [->|[-> ->]] [->|[-> ->]]; change (Z2num 0) with 0%float;
    rewrite ?lt_neg_zero_l, ?lt_neg_zero_r,
      ?ticks_up_neg_zero_i, ?ticks_up_neg_zero_j,
      ?ticks_down_neg_zero_i, ?ticks_down_neg_zero_j;
    repeat split.
Qed.

(** *** A zero lower bound *)

Lemma log_zero (x : number) : strict_eq x 0 = true -> Math.log x = neg_infinity.
Proof.
  intros H. destruct (strict_eq_zero_inv x H) as [s Hs].
  assert (Hb : bits x = 0 \/ bits x = 2 ^ 63).
  { unfold bits. rewrite Hs. destruct s; [right|left]; reflexivity. }
  unfold Math.log, Math.HI, Math.LO.
  destruct Hb as [-> | ->]; reflexivity.
Qed.

Lemma ticks_down_from_infinity (room : nat) (base j : number) (l : list number) :
  gt infinity j = true ->
  ticks_down room base infinity j l = Throw (RangeError "Invalid array length").
Proof.
  intros Hj. revert l. induction room as [|room IH]; intros l; simpl; rewrite Hj.
  - reflexivity.
  - change (infinity - 1)%float with infinity. apply IH.
Qed.

(** *** A negative or missing bound *)

(** The encoding of a negative number or of -Infinity has its sign bit set
    and a nonzero rest. *)
Lemma bits_negative (x : number) :
  lt x 0 = true -> exists r, 0 < r < 2 ^ 63 /\ bits x = 2 ^ 63 + r.
Proof.
  unfold lt. rewrite ltb_spec. change (Prim2SF 0) with (S754_zero false).
  pose proof (Prim2SF_valid x) as Hv. unfold bits.
  destruct (Prim2SF x) as [s|s| |s m e]; try discriminate.
  - destruct s; [|discriminate]. intros _.
    exists 0x7ff0000000000000. split; [lia|reflexivity].
  - destruct s; [|discriminate]. intros _.
    simpl in Hv. unfold bounded, canonical_mantissa, fexp, SpecFloat.emin in Hv.
    apply andb_prop in Hv. destruct Hv as [Hc He].
    apply Z.eqb_eq in Hc. apply Z.leb_le in He.
    rewrite digits2_pos_size in Hc. unfold prec, emax in *.
    pose proof (lt_pow_size m) as Hm1. pose proof (pos_size_lower m) as Hm2.
    cbn [bits_of_SF]. rewrite digits2_pos_size.
    destruct (Z.eqb_spec (Z.pos (Pos.size m)) prec) as [Hs|Hs]; unfold prec in Hs.
    + rewrite Hs in *. change (2 ^ 53) with 9007199254740992 in Hm1.
      change (2 ^ (53 - 1)) with 4503599627370496 in Hm2.
      eexists. split; [|reflexivity].
      change (2 ^ 52) with 4503599627370496.
      change (2 ^ 63) with 9223372036854775808. lia.
    + exists (Z.pos m). split; [|reflexivity].
      assert (Z.pos (Pos.size m) <= 52) by lia.
      assert (2 ^ Z.pos (Pos.size m) <= 2 ^ 52) by (apply Z.pow_le_mono_r; lia).
      change (2 ^ 52) with 4503599627370496 in *.
      change (2 ^ 63) with 9223372036854775808. lia.
Qed.

Lemma log_negative (x : number) : lt x 0 = true -> Math.log x = nan.
Proof.
  intros Hx. destruct (bits_negative x Hx) as (r & Hr & Hb).
  change (2 ^ 63) with 9223372036854775808 in *.
  assert (Hhi : Math.HI x = r / 4294967296 - 2147483648).
  { unfold Math.HI. rewrite Hb, Z.shiftr_div_pow2 by lia.
    change (2 ^ 32) with 4294967296. change (2 ^ 31) with 2147483648.
    destruct (Z.ltb_spec ((9223372036854775808 + r) / 4294967296) 2147483648);
      Z.div_mod_to_equations; lia. }
  assert (Hlo : Math.LO x = r mod 4294967296).
  { unfold Math.LO. rewrite Hb.
    change 0xffffffff with (Z.ones 32). rewrite Z.land_ones by lia.
    change (2 ^ 32) with 4294967296. Z.div_mod_to_equations. lia. }
  unfold Math.log. cbv zeta. rewrite Hhi, Hlo.
  match goal with |- context [?a <? 1048576] =>
    destruct (Z.ltb_spec a 1048576); [|exfalso; Z.div_mod_to_equations; lia] end.
  change 0x7fffffff with (Z.ones 31). rewrite Z.land_ones by lia.
  change (2 ^ 31) with 2147483648.
  match goal with |- context [Z.lor ?a ?b =? 0] =>
    destruct (Z.eqb_spec (Z.lor a b) 0) as [Hz|Hz] end.
  - exfalso. apply Z.lor_eq_0_iff in Hz. destruct Hz as [H1 H2].
    Z.div_mod_to_equations. lia.
  - match goal with |- context [?a <? 0] =>
      destruct (Z.ltb_spec a 0); [reflexivity|exfalso; Z.div_mod_to_equations; lia] end.
Qed.

Lemma log_nan (x : number) : isNaN x = true -> Math.log x = nan.
Proof.
  intros H. apply isNaN_inv in H.
  assert (Hx : x = nan) by (apply Prim2SF_inj; rewrite H; reflexivity).
  subst x. vm_compute. reflexivity.
Qed.

Lemma nan_unordered (j : number) : lt nan j = false /\ gt nan j = false.
Proof.
  unfold lt, gt. rewrite !ltb_spec. change (Prim2SF nan) with S754_nan.
  split; [reflexivity|]. destruct (Prim2SF j) as [s|s| |s m e]; reflexivity.
Qed.

Lemma unordered_nan (i : number) : lt i nan = false /\ gt i nan = false.
Proof.
  unfold lt, gt. rewrite !ltb_spec. change (Prim2SF nan) with S754_nan.
  split; [|reflexivity]. destruct (Prim2SF i) as [s|s| |s m e]; reflexivity.
Qed.

(** *** Domains with fewer than two numbers *)


(** A bound without a logarithm stops both loops before their first round;
    without power ticks the generator compares 0 with
    [minimumNumberOfTicks]. *)
Lemma power_ticks_without_logarithm (max_length : nat) (this : Log) :
  Math.log (ToNumber (at_ (_getDomain this) 0)) = nan
  \/ Math.log (ToNumber (at_ (_getDomain this) 1)) = nan ->
  power_ticks max_length this = Ok [].
Proof.
  intros Hcase. unfold power_ticks. cbv zeta.
  destruct Hcase as [Hl|Hl]; rewrite Hl, nan_div.
  - change (Math.floor nan) with nan.
    rewrite (proj1 (nan_unordered _)), ticks_down_eq, (proj2 (nan_unordered _)).
    reflexivity.
  - change (Math.ceil nan) with nan.
    rewrite (proj1 (unordered_nan _)), ticks_down_eq, (proj2 (unordered_nan _)).
    reflexivity.
Qed.

Lemma logTickGenerator_without_power_ticks
  (d3_ticks : ScaleLogarithmic -> number -> list number)
  (max_length : nat) (this : Log) :
  power_ticks max_length this = Ok [] ->
  _logTickGenerator d3_ticks max_length this =
  Ok (if lt 0 (_minimumNumberOfTicks this)
      then d3_ticks (_d3Scale this) (_minimumNumberOfTicks this)
      else []).
Proof.
  intros Hp. unfold _logTickGenerator. rewrite Hp.
  change (Z2num (Z.of_nat (List.length (@nil number)))) with 0%float.
  destruct (lt 0 (_minimumNumberOfTicks this)); reflexivity.
Qed.

Section Generic.

Variable d3_ticks : ScaleLogarithmic -> number -> list number.

(** When the two loop bounds [Math.floor(log(min)/log(base))] and
    [Math.ceil(log(max)/log(base))] are the integers [zi] and [zj] (as
    numbers: a bound of -0 is the integer 0), the loop ends and collects the
    powers [base^zi, ..., base^(zj-1)] if [zi < zj] (the upper bound's own
    power is left out) and [base^zi, ..., base^(zj+1)] in descending order
    otherwise: [|zj - zi|] ticks, which the array must be able to hold.  The
    generator returns them unless they are fewer than
    [minimumNumberOfTicks]; then it returns the backing scale's ticks. *)
Theorem logTickGenerator_integral_bounds
  (max_length : nat) (this : Log) (zi zj : Z) :
  -2000 <= zi <= 2000 -> -2000 <= zj <= 2000 ->
  strict_eq
    (Math.floor (Math.log (ToNumber (at_ (_getDomain this) 0))
                 / Math.log (_base this))%float)
    (Z2num zi) = true ->
  strict_eq
    (Math.ceil (Math.log (ToNumber (at_ (_getDomain this) 1))
                / Math.log (_base this))%float)
    (Z2num zj) = true ->
  Z.abs (zj - zi) <= Z.of_nat max_length ->
  let ticks :=
    if zi <? zj then powers_up (_base this) zi (Z.to_nat (zj - zi))
    else powers_down (_base this) zi (Z.to_nat (zi - zj)) in
  power_ticks max_length this = Ok ticks
  /\ Z.of_nat (List.length ticks) = Z.abs (zj - zi)
  /\ _logTickGenerator d3_ticks max_length this =
     Ok (if lt (Z2num (Z.abs (zj - zi))) (_minimumNumberOfTicks this)
         then d3_ticks (_d3Scale this) (_minimumNumberOfTicks this)
         else ticks).
Proof.
  intros Hzi Hzj Hi Hj Hroom ticks.
  apply strict_eq_Z2num_inv in Hi; [|apply small_exponent; lia].
  apply strict_eq_Z2num_inv in Hj; [|apply small_exponent; lia].
  assert (Hp : power_ticks max_length this = Ok ticks).
  { unfold power_ticks. cbv zeta.
    destruct (loops_on_integers max_length (_base this) _ _ zi zj Hi Hj)
      as (Hlt & Hup & Hdown).
    rewrite Hlt, Hup, Hdown.
    rewrite lt_Z2num by (apply small_exponent; lia).
    unfold ticks. destruct (Z.ltb_spec zi zj) as [Hlt'|Hge].
    - replace zj with (zi + Z.of_nat (Z.to_nat (zj - zi))) at 1 by lia.
      apply (ticks_up_integral _ _ max_length zi []); lia.
    - replace zj with (zi - Z.of_nat (Z.to_nat (zi - zj))) at 1 by lia.
      apply (ticks_down_integral _ _ max_length zi []); lia. }
  assert (Hlen : Z.of_nat (List.length ticks) = Z.abs (zj - zi)).
  { unfold ticks, powers_up, powers_down.
    destruct (Z.ltb_spec zi zj); rewrite length_map, length_seq; lia. }
  split; [exact Hp|]. split; [exact Hlen|].
  unfold _logTickGenerator. rewrite Hp, Hlen.
  destruct (lt _ _); reflexivity.
Qed.

(** With a lower domain bound of zero the first loop bound is infinite:
    [-Infinity] when [Math.log(base)] is positive, [+Infinity] when it is
    negative.  Unless the other bound [j] is that same infinity or NaN, the
    loop condition never becomes false: the loop pushes ticks until the
    array is full, whatever its largest length, and the generator ends in
    the [RangeError] of [push] instead of returning ticks.  In the remaining
    cases the loop collects no tick. *)
Theorem zero_lower_bound
  (max_length : nat) (this : Log) (s : bool) (m : positive) (e : Z) :
  strict_eq (ToNumber (at_ (_getDomain this) 0)) 0 = true ->
  Prim2SF (Math.log (_base this)) = S754_finite s m e ->
  let j := Math.ceil (Math.log (ToNumber (at_ (_getDomain this) 1))
                      / Math.log (_base this))%float in
  let fills_array := if s then gt infinity j else lt neg_infinity j in
  power_ticks max_length this =
    (if fills_array then Throw (RangeError "Invalid array length") else Ok [])
  /\ _logTickGenerator d3_ticks max_length this =
     (if fills_array then Throw (RangeError "Invalid array length")
      else Ok (if lt 0 (_minimumNumberOfTicks this)
               then d3_ticks (_d3Scale this) (_minimumNumberOfTicks this)
               else [])).
Proof.
  intros Hmin Hbase j fills_array.
  assert (Hp : power_ticks max_length this =
               if fills_array then Throw (RangeError "Invalid array length")
               else Ok []).
  { unfold power_ticks. cbv zeta. fold j.
    rewrite (log_zero _ Hmin), (neg_infinity_div_finite _ s m e Hbase).
    unfold fills_array. destruct s.
    - change (Math.floor infinity) with infinity.
      rewrite nothing_above_infinity.
      destruct (gt infinity j) eqn:E.
      + now apply ticks_down_from_infinity.
      + rewrite ticks_down_eq, E. reflexivity.
    - change (Math.floor neg_infinity) with neg_infinity.
      destruct (lt neg_infinity j) eqn:E.
      + now apply ticks_up_from_neg_infinity.
      + rewrite ticks_down_eq, nothing_below_neg_infinity. reflexivity. }
  split; [exact Hp|].
  unfold _logTickGenerator. rewrite Hp.
  destruct fills_array; [reflexivity|].
  change (Z2num (Z.of_nat (List.length (@nil number)))) with 0%float.
  destruct (lt 0 (_minimumNumberOfTicks this)); reflexivity.
Qed.

(** A domain bound that is negative, NaN or missing has no logarithm: the
    loop bound computed from it is NaN, both loop conditions are false at
    once, and no tick is collected, for any base and any other bound.  The
    generator then returns the backing scale's ticks when
    [minimumNumberOfTicks] is positive. *)
Theorem negative_bound_no_ticks (max_length : nat) (this : Log) :
  lt (ToNumber (at_ (_getDomain this) 0)) 0 = true
  \/ isNaN (ToNumber (at_ (_getDomain this) 0)) = true
  \/ lt (ToNumber (at_ (_getDomain this) 1)) 0 = true
  \/ isNaN (ToNumber (at_ (_getDomain this) 1)) = true ->
  power_ticks max_length this = Ok []
  /\ _logTickGenerator d3_ticks max_length this =
     Ok (if lt 0 (_minimumNumberOfTicks this)
         then d3_ticks (_d3Scale this) (_minimumNumberOfTicks this)
         else []).
Proof.
  intros H.
  assert (Hp : power_ticks max_length this = Ok []).
  { apply power_ticks_without_logarithm.
    destruct H as [H|[H|[H|H]]];
      [left; now apply log_negative | left; now apply log_nan
      |right; now apply log_negative | right; now apply log_nan]. }
  split; [exact Hp|]. now apply logTickGenerator_without_power_ticks.
Qed.

(** C4, as the code has it.  [_backingScaleDomain(values)] hands any values
    to the backing scale unchanged and returns the scale: the domain read
    back is the one supplied, and base, range, minimum number of ticks and
    tick generator are as they were.  Nothing on this path looks at the
    values, and a negative bound is used as it was stored: the tick
    generator finds no logarithm for it, collects no power-of-base tick and
    raises no error either. *)
Theorem backingScaleDomain_stores
  (max_length : nat) (this : Log) (values : list number) (min max : number) :
  _getDomain (_backingScaleDomain this values) = values
  /\ _base (_backingScaleDomain this values) = _base this
  /\ d3_base (_d3Scale (_backingScaleDomain this values)) = d3_base (_d3Scale this)
  /\ _getRange (_backingScaleDomain this values) = _getRange this
  /\ _minimumNumberOfTicks (_backingScaleDomain this values)
     = _minimumNumberOfTicks this
  /\ _tickGenerator (_backingScaleDomain this values) = _tickGenerator this
  /\ (lt min 0 = true \/ lt max 0 = true ->
      power_ticks max_length (_backingScaleDomain this [min; max]) = Ok []
      /\ _logTickGenerator d3_ticks max_length (_backingScaleDomain this [min; max]) =
         Ok (if lt 0 (_minimumNumberOfTicks this)
             then d3_ticks (_d3Scale (_backingScaleDomain this [min; max]))
                           (_minimumNumberOfTicks this)
             else [])).
Proof.
  do 6 (split; [reflexivity|]).
  intros H.
  assert (Hp : power_ticks max_length (_backingScaleDomain this [min; max]) = Ok []).
  { apply power_ticks_without_logarithm.
    change (_getDomain (_backingScaleDomain this [min; max])) with [min; max].
    cbn [at_ nth_error ToNumber].
    destruct H as [H|H]; [left|right]; now apply log_negative. }
  split; [exact Hp|].
  now apply (logTickGenerator_without_power_ticks d3_ticks max_length
               (_backingScaleDomain this [min; max])).
Qed.


End Generic.

Lemma logTickGenerator_integral_bounds_witness :
  power_ticks 4 (_backingScaleDomain (new_Log 2 4) [0.25; 4]%float)
  = Ok [0.25; 0.5; 1; 2]%float
  /\ power_ticks 2 (_backingScaleDomain (new_Log 2 4) [0.25; 0.75]%float)
     = Ok [0.25; 0.5]%float
  /\ power_ticks 2 (_backingScaleDomain (new_Log 10 4) [1000; 1]%float)
     = Ok [100; 10]%float
  /\ _logTickGenerator d3_ticks_reference 3
       (_backingScaleDomain (new_Log 10 3) [1; 1000]%float)
     = Ok [1; 10; 100]%float.
Proof.
  split; [|split; [|split]].
  - etransitivity.
    + apply (logTickGenerator_integral_bounds d3_ticks_reference 4
               (_backingScaleDomain (new_Log 2 4) [0.25; 4]%float) (-2) 2);
        [lia | lia | vm_compute; reflexivity | vm_compute; reflexivity | lia].
    + vm_compute. reflexivity.
  - etransitivity.
    + apply (logTickGenerator_integral_bounds d3_ticks_reference 2
               (_backingScaleDomain (new_Log 2 4) [0.25; 0.75]%float) (-2) 0);
        [lia | lia | vm_compute; reflexivity | vm_compute; reflexivity | lia].
    + vm_compute. reflexivity.
  - etransitivity.
    + apply (logTickGenerator_integral_bounds d3_ticks_reference 2
               (_backingScaleDomain (new_Log 10 4) [1000; 1]%float) 2 0);
        [lia | lia | vm_compute; reflexivity | vm_compute; reflexivity | lia].
    + vm_compute. reflexivity.
  - etransitivity.
    + apply (logTickGenerator_integral_bounds d3_ticks_reference 3
               (_backingScaleDomain (new_Log 10 3) [1; 1000]%float) 0 3);
        [lia | lia | vm_compute; reflexivity | vm_compute; reflexivity | lia].
    + vm_compute. reflexivity.
Defined.

Lemma zero_lower_bound_witness :
  power_ticks 1000 (_backingScaleDomain (new_Log 10 4) [0; 500]%float)
  = Throw (RangeError "Invalid array length")
  /\ power_ticks 1000 (_backingScaleDomain (new_Log 0.5 4) [0; 8]%float)
     = Throw (RangeError "Invalid array length")
  /\ power_ticks 0 (_backingScaleDomain (new_Log 10 4) [0; 0]%float) = Ok [].
Proof.
  split; [|split].
  - apply (zero_lower_bound d3_ticks_reference 1000
             (_backingScaleDomain (new_Log 10 4) [0; 500]%float)
             false 5184960683398422 (-51)); vm_compute; reflexivity.
  - apply (zero_lower_bound d3_ticks_reference 1000
             (_backingScaleDomain (new_Log 0.5 4) [0; 8]%float)
             true 6243314768165359 (-53)); vm_compute; reflexivity.
  - apply (zero_lower_bound d3_ticks_reference 0
             (_backingScaleDomain (new_Log 10 4) [0; 0]%float)
             false 5184960683398422 (-51)); vm_compute; reflexivity.
Defined.

Lemma negative_bound_no_ticks_witness :
  power_ticks 0 (_backingScaleDomain (new_Log 10 4) [-1; 10]%float) = Ok []
  /\ _logTickGenerator d3_ticks_reference 0
       (_backingScaleDomain (new_Log 10 4) [1; -100]%float)
     = Ok (d3_ticks_reference
             (_d3Scale (_backingScaleDomain (new_Log 10 4) [1; -100]%float)) 4)
  /\ power_ticks 0 (_backingScaleDomain (new_Log 10 4) [5%float]) = Ok [].
Proof.
  split; [|split].
  - apply (negative_bound_no_ticks d3_ticks_reference 0
             (_backingScaleDomain (new_Log 10 4) [-1; 10]%float)).
    left. reflexivity.
  - apply (negative_bound_no_ticks d3_ticks_reference 0
             (_backingScaleDomain (new_Log 10 4) [1; -100]%float)).
    right. right. left. reflexivity.
  - apply (negative_bound_no_ticks d3_ticks_reference 0
             (_backingScaleDomain (new_Log 10 4) [5%float])).
    right. right. right. reflexivity.
Defined.

Lemma backingScaleDomain_stores_witness :
  _getDomain (_backingScaleDomain (new_Log 10 4) [-1; 10]%float) = [-1; 10]%float
  /\ _logTickGenerator d3_ticks_reference 0
       (_backingScaleDomain (new_Log 10 4) [-1; 10]%float)
     = Ok (d3_ticks_reference
             (_d3Scale (_backingScaleDomain (new_Log 10 4) [-1; 10]%float)) 4).
Proof.
  pose proof (backingScaleDomain_stores d3_ticks_reference 0 (new_Log 10 4)
                [-1; 10]%float (-1)%float 10%float) as (Hd & _ & _ & _ & _ & _ & Ht).
  split; [exact Hd|]. apply Ht. left. reflexivity.
Defined.

End ScalesLaws.
